(** * Peer-evaluation backend: teacher routes and admin teacher controller

    A shallow embedding of the handlers of
    [backend/src/routes/teacher/teacher.routes.ts] and
    [backend/src/controllers/admin/teacher.controller.ts] over an explicit
    document store, with the properties of the peer-evaluation assignment
    ([POST /send-solutions/:examId]), of exam editing and deletion, and of
    [assignTeacherToCourse]. *)

From Stdlib Require Import ZArith Lia.
From stdpp Require Import base list strings pretty.

Local Open Scope string_scope.

(** ** Documents *)

(** A MongoDB [ObjectId]; only its identity matters. *)
Abbreviation ObjectId := N (only parsing).

(** The values a JSON request body can carry in the fields read by the
    handlers (numbers are integral; [JsUndefined] is an absent field). *)
Inductive JsValue :=
  | JsUndefined
  | JsNull
  | JsBool (b : bool)
  | JsNumber (z : Z)
  | JsString (s : string).

#[global] Instance JsValue_eq_dec : EqDecision JsValue.
Proof. solve_decision. Defined.

(** JavaScript truthiness, as tested by [if (v)]. *)
Definition truthy (v : JsValue) : bool :=
  match v with
  | JsUndefined | JsNull => false
  | JsBool b => b
  | JsNumber z => negb (z =? 0)%Z
  | JsString s => negb (String.eqb s "")
  end.

(** A [Date] object, kept symbolic by the string it denotes. *)
Inductive Date := NewDate (s : string).

Record User := mkUser {
  user_id : ObjectId;
  user_name : string;
  user_email : string;
  user_role : string;
  enrolledCourses : list ObjectId
}.

Record Course := mkCourse {
  course_id : ObjectId;
  course_code : string
}.

Record Question := mkQuestion {
  questionText : string;
  maxMarks : Z
}.

(** An exam document; [numQuestions] and [k] are numbers of the schema,
    taken integral here, with no sign constraint of their own. *)
Record Exam := mkExam {
  exam_id : ObjectId;
  createdBy : ObjectId;
  exam_course : ObjectId;
  exam_batch : ObjectId;
  title : string;
  startTime : Date;
  endTime : Date;
  numQuestions : Z;
  questions : list Question;
  exam_k : Z
}.

Record Submission := mkSubmission {
  sub_exam : ObjectId;
  sub_student : ObjectId
}.

Inductive Status := pending | completed.

Record Evaluation := mkEvaluation {
  ev_exam : ObjectId;
  evaluator : ObjectId;
  evaluatee : ObjectId;
  marks : list Z;
  feedback : string;
  status : Status
}.

(** The collections of the document store. *)
Record DB := mkDB {
  Users : list User;
  Courses : list Course;
  Exams : list Exam;
  Submissions : list Submission;
  Evaluations : list Evaluation
}.

Definition set_Evaluations (evs : list Evaluation) (db : DB) : DB :=
  mkDB (Users db) (Courses db) (Exams db) (Submissions db) evs.

Definition set_Exams (exs : list Exam) (db : DB) : DB :=
  mkDB (Users db) (Courses db) exs (Submissions db) (Evaluations db).

Definition set_Users (us : list User) (db : DB) : DB :=
  mkDB us (Courses db) (Exams db) (Submissions db) (Evaluations db).

(** An HTTP answer: [res.status(c).json({...})]; the exam is the document
    echoed by the edit route. *)
Record Response := mkResponse {
  res_status : nat;
  res_text : string;
  res_exam : option Exam
}.

Definition json (c : nat) (m : string) : Response := mkResponse c m None.

(** ** Collection primitives *)

(** [Model.findOne(q)]: the first document satisfying the query. *)
Definition findOne {A} (P : A → Prop) `{∀ x, Decision (P x)}
    (l : list A) : option A :=
  snd <$> list_find P l.

(** [Model.find(q)] and [Model.deleteMany(q)]. *)
Definition find {A} (P : A → Prop) `{∀ x, Decision (P x)}
    (l : list A) : list A :=
  filter P l.

Definition deleteMany {A} (P : A → Prop) `{∀ x, Decision (P x)}
    (l : list A) : list A :=
  filter (λ x, ¬ P x) l.

(** [Model.deleteOne(q)]: removes the first match only. *)
Definition deleteOne {A} (P : A → Prop) `{∀ x, Decision (P x)}
    (l : list A) : list A :=
  match list_find P l with
  | Some (i, _) => delete i l
  | None => l
  end.

(** [.populate('student')]: the referenced user, [None] (JS [null]) when
    the reference dangles. *)
Definition populate_student (db : DB) (sub : Submission) : option User :=
  findOne (λ u, user_id u = sub_student sub) (Users db).

(** ** JavaScript array primitives used by the assignment *)

(** [arr.filter((_, index) => p(index))], indices counted from [start]. *)
Fixpoint filter_index {A} (p : nat → bool) (start : nat) (l : list A)
    : list A :=
  match l with
  | [] => []
  | x :: l' =>
      if p start then x :: filter_index p (S start) l'
      else filter_index p (S start) l'
  end.

(** [arr.slice(0, end)] for an integral [end]: a negative [end] counts
    from the back of the array. *)
Definition slice0 {A} (end_ : Z) (l : list A) : list A :=
  let len := Z.of_nat (length l) in
  let final :=
    if (end_ <? 0)%Z then Z.max (len + end_) 0 else Z.min end_ len in
  take (Z.to_nat final) l.

(** [new Array(n).fill(v)]: a [RangeError] ([None]) unless [n] is a valid
    array length. *)
Definition new_Array_fill (n : Z) (v : Z) : option (list Z) :=
  if ((0 <=? n) && (n <? 2 ^ 32))%Z
  then Some (replicate (Z.to_nat n) v)
  else None.

(** ** POST /send-solutions/:examId *)

(** State of the evaluation collection when a loop ends normally, or when
    an exception escapes to the handler's [catch]. *)
Inductive outcome :=
  | Done (evs : list Evaluation)
  | Thrown (evs : list Evaluation).

Definition store_of (o : outcome) : list Evaluation :=
  match o with Done evs | Thrown evs => evs end.

Definition same_pair (examId e v : ObjectId) (r : Evaluation) : Prop :=
  ev_exam r = examId ∧ evaluator r = e ∧ evaluatee r = v.

#[global] Instance same_pair_dec examId e v r :
  Decision (same_pair examId e v r).
Proof. unfold same_pair. apply _. Defined.

(** The inner loop [for (const evaluatee of assignedEvaluatees)]. Reading
    [_id] of a [null] student throws. *)
Fixpoint assign_evaluatees (examId : ObjectId) (numQ : Z)
    (evaluator_ : option User) (assignedEvaluatees : list (option User))
    (evs : list Evaluation) : outcome :=
  match assignedEvaluatees with
  | [] => Done evs
  | evaluatee_ :: rest =>
      match evaluator_, evaluatee_ with
      | Some er, Some ee =>
          match findOne (same_pair examId (user_id er) (user_id ee)) evs with
          | Some _ => assign_evaluatees examId numQ evaluator_ rest evs
          | None =>
              match new_Array_fill numQ 0 with
              | Some zeros =>
                  assign_evaluatees examId numQ evaluator_ rest
                    (evs ++ [mkEvaluation examId (user_id er) (user_id ee)
                                          zeros "" pending])
              | None => Thrown evs
              end
          end
      | _, _ => Thrown evs
      end
  end.

Section SendSolutions.

(** [otherStudents.sort(() => 0.5 - Math.random())] at iteration [i] of
    the outer loop: the random source is an oracle. *)
Variable shuffle : nat → list (option User) → list (option User).

(** One iteration of [for (let i = 0; i < students.length; i++)]. The
    sort is in place, so [otherStudents.length] is read off the array
    that [shuffled] aliases. *)
Definition assign_for (examId : ObjectId) (numQ k : Z)
    (students : list (option User)) (i : nat)
    (evs : list Evaluation) : outcome :=
  let evaluator_ := default None (students !! i) in
  let otherStudents := filter_index (λ index, negb (Nat.eqb index i)) 0 students in
  let shuffled := shuffle i otherStudents in
  let assignedEvaluatees :=
    slice0 (Z.min k (Z.of_nat (length shuffled))) shuffled in
  assign_evaluatees examId numQ evaluator_ assignedEvaluatees evs.

Fixpoint assign_loop (examId : ObjectId) (numQ k : Z)
    (students : list (option User)) (indices : list nat)
    (evs : list Evaluation) : outcome :=
  match indices with
  | [] => Done evs
  | i :: indices' =>
      match assign_for examId numQ k students i evs with
      | Done evs' => assign_loop examId numQ k students indices' evs'
      | Thrown evs' => Thrown evs'
      end
  end.

Definition send_solutions (teacherId examId : ObjectId) (db : DB)
    : Response * DB :=
  match findOne (λ e, exam_id e = examId ∧ createdBy e = teacherId)
                (Exams db) with
  | None => (json 404 "Exam not found or unauthorized", db)
  | Some exam =>
      let submissions := find (λ s, sub_exam s = examId) (Submissions db) in
      if decide (length submissions = 0)
      then (json 400 "No submissions found for this exam", db)
      else
        let students := populate_student db <$> submissions in
        match assign_loop examId (numQuestions exam) (exam_k exam) students
                          (seq 0 (length students)) (Evaluations db) with
        | Done evs =>
            (json 200 "Solutions sent to students for peer evaluation",
             set_Evaluations evs db)
        | Thrown evs =>
            (json 500 "Failed to send solutions for evaluation",
             set_Evaluations evs db)
        end
  end.

End SendSolutions.

Definition send_solutions_db shuffle teacherId examId db : DB :=
  snd (send_solutions shuffle teacherId examId db).

(** Repeated invocation for the same exam, one oracle per run, each run
    seeing the records the previous runs created. *)
Fixpoint send_solutions_n
    (shuffles : list (nat → list (option User) → list (option User)))
    (teacherId examId : ObjectId) (db : DB) : DB :=
  match shuffles with
  | [] => db
  | shuffle :: rest =>
      send_solutions_n rest teacherId examId
        (send_solutions_db shuffle teacherId examId db)
  end.

(** The evaluatees an evaluator holds for an exam. *)
Definition evaluatees_of (examId e : ObjectId) (evs : list Evaluation)
    : list ObjectId :=
  evaluatee <$> filter (λ r, ev_exam r = examId ∧ evaluator r = e) evs.

(** The (exam, evaluator, evaluatee) key of a record. *)
Definition pair_of (r : Evaluation) : ObjectId * ObjectId * ObjectId :=
  (ev_exam r, evaluator r, evaluatee r).

(** ** DELETE /exam/:examId *)

Definition delete_exam (userId examId : ObjectId) (db : DB)
    : Response * DB :=
  match findOne (λ e, exam_id e = examId ∧ createdBy e = userId)
                (Exams db) with
  | None => (json 404 "Exam not found or unauthorized", db)
  | Some _ =>
      let evaluations := deleteMany (λ r, ev_exam r = examId) (Evaluations db) in
      let submissions := deleteMany (λ s, sub_exam s = examId) (Submissions db) in
      let exams := deleteOne (λ e, exam_id e = examId) (Exams db) in
      (json 200 "Exam and related data deleted successfully",
       mkDB (Users db) (Courses db) exams submissions evaluations)
  end.

(** ** PUT /exam/:examId *)

(** [req.body] of the edit route. *)
Record EditBody := mkEditBody {
  body_title : JsValue;
  body_startTime : JsValue;
  body_endTime : JsValue;
  body_numQuestions : JsValue;
  body_k : JsValue
}.

(** The placeholder questions pushed by
    [for (let i = 1; i <= numQuestions; i++)]; no iteration when the bound
    is [NaN] ([None]). *)
Definition placeholder_questions (bound : option Z) : list Question :=
  match bound with
  | Some n =>
      (λ i, mkQuestion ("Question " ++ pretty i) 10) <$> seqZ 1 n
  | None => []
  end.

Section EditExam.

(** What the schema layer and the language do with a value of another
    type than the field's: the casts of a string, date or number path
    ([None]: the cast fails and [save()] rejects) and the numeric value of
    a string in a comparison ([None]: [NaN]). *)
Variable castToString : JsValue → option string.
Variable castToDate : JsValue → option Date.
Variable castToNumber : JsValue → option Z.
Variable StringToNumber : string → option Z.

Definition string_path (v : JsValue) : option string :=
  match v with JsString s => Some s | _ => castToString v end.

(** [new Date(v)] stored in a date path; an invalid date is a failed
    cast. *)
Definition date_path (v : JsValue) : option Date := castToDate v.

Definition number_path (v : JsValue) : option Z :=
  match v with JsNumber z => Some z | _ => castToNumber v end.

(** [ToNumber], as applied to the bound of the questions loop. *)
Definition ToNumber (v : JsValue) : option Z :=
  match v with
  | JsUndefined => None
  | JsNull => Some 0%Z
  | JsBool b => Some (if b then 1 else 0)%Z
  | JsNumber z => Some z
  | JsString s => StringToNumber s
  end.

(** The field updates between [findOne] and [save()]. *)
Definition update_fields (body : EditBody) (exam : Exam) : option Exam :=
  title' ←
    (if truthy (body_title body) then string_path (body_title body)
     else Some (title exam));
  startTime' ←
    (if truthy (body_startTime body) then date_path (body_startTime body)
     else Some (startTime exam));
  endTime' ←
    (if truthy (body_endTime body) then date_path (body_endTime body)
     else Some (endTime exam));
  nq ←
    (if truthy (body_numQuestions body)
        && bool_decide (body_numQuestions body
                        ≠ JsNumber (numQuestions exam))
     then
       n ← number_path (body_numQuestions body);
       Some (n, placeholder_questions (ToNumber (body_numQuestions body)))
     else Some (numQuestions exam, questions exam));
  k' ←
    (if truthy (body_k body) then number_path (body_k body)
     else Some (exam_k exam));
  Some (mkExam (exam_id exam) (createdBy exam) (exam_course exam)
               (exam_batch exam) title' startTime' endTime'
               (fst nq) (snd nq) k').

Definition edit_exam (userId examId : ObjectId) (body : EditBody)
    (db : DB) : Response * DB :=
  match list_find (λ e, exam_id e = examId ∧ createdBy e = userId)
                  (Exams db) with
  | None => (json 404 "Exam not found or unauthorized", db)
  | Some (i, exam) =>
      match update_fields body exam with
      | Some exam' =>
          (mkResponse 200 "Exam updated successfully" (Some exam'),
           set_Exams (<[i := exam']> (Exams db)) db)
      | None => (json 500 "Failed to update exam", db)
      end
  end.

End EditExam.

(** ** assignTeacherToCourse *)

Definition assignTeacherToCourse (email courseCode : string) (db : DB)
    : Response * DB :=
  match list_find (λ u, user_email u = email ∧ user_role u = "teacher")
                  (Users db) with
  | None => (json 404 "Teacher not found", db)
  | Some (i, teacher) =>
      match findOne (λ c, course_code c = courseCode) (Courses db) with
      | None => (json 404 "Course not found", db)
      | Some course =>
          let courseId := course_id course in
          let alreadyAssigned :=
            existsb (λ id, N.eqb id courseId) (enrolledCourses teacher) in
          if negb alreadyAssigned then
            let teacher' :=
              mkUser (user_id teacher) (user_name teacher)
                     (user_email teacher) (user_role teacher)
                     (enrolledCourses teacher ++ [courseId]) in
            (json 200 "Teacher assigned to course successfully",
             set_Users (<[i := teacher']> (Users db)) db)
          else (json 200 "Teacher assigned to course successfully", db)
      end
  end.


(** ** Sample data *)

Definition alice := mkUser 1 "Alice" "alice@x" "student" [].
Definition bob := mkUser 2 "Bob" "bob@x" "student" [].
Definition carol := mkUser 3 "Carol" "carol@x" "student" [].
Definition dave := mkUser 9 "Dave" "dave@x" "teacher" [].

Definition exam_of (k : Z) : Exam :=
  mkExam 100 9 50 60 "Quiz" (NewDate "t0") (NewDate "t1") 2
         [mkQuestion "Question 1" 10; mkQuestion "Question 2" 10] k.

Definition db_of (k : Z) : DB :=
  mkDB [alice; bob; carol; dave] [mkCourse 50 "CS1"] [exam_of k]
       [mkSubmission 100 1; mkSubmission 100 2; mkSubmission 100 3] [].

Definition keep : nat → list (option User) → list (option User) :=
  λ _ l, l.
Definition flip : nat → list (option User) → list (option User) :=
  λ _ l, reverse l.

(** ** Specification vocabulary *)

(** The record the assignment seeds for the pair [(e, v)] of an exam with
    [numQ] questions. *)
Definition seeded (examId : ObjectId) (numQ : Z) (e v : ObjectId)
    (r : Evaluation) : Prop :=
  r = mkEvaluation examId e v (replicate (Z.to_nat numQ) 0%Z) "" pending
  ∧ (0 ≤ numQ < 2 ^ 32)%Z.

(** [created] holds no pair twice and no pair of [evs]. *)
Definition fresh_for (evs created : list Evaluation) : Prop :=
  NoDup (pair_of <$> created)
  ∧ ∀ r, r ∈ created → pair_of r ∉ pair_of <$> evs.

(** The students of an exam as the handler sees them. *)
Definition students_of (examId : ObjectId) (db : DB) : list (option User) :=
  populate_student db <$> find (λ s, sub_exam s = examId) (Submissions db).

(** The submitter ids of an exam, and the exam a teacher owns. *)
Definition submitters (examId : ObjectId) (db : DB) : list ObjectId :=
  sub_student <$> find (λ s, sub_exam s = examId) (Submissions db).

Definition exam_of_teacher (teacherId examId : ObjectId) (db : DB)
    : option Exam :=
  findOne (λ e, exam_id e = examId ∧ createdBy e = teacherId) (Exams db).

(** One submission per (student, exam): the submitters form a set. *)
Definition one_submission_each (examId : ObjectId) (db : DB) : Prop :=
  NoDup (submitters examId db).

(** The candidates and the selection of iteration [i]. *)
Definition others (students : list (option User)) (i : nat)
    : list (option User) :=
  filter_index (λ index, negb (Nat.eqb index i)) 0 students.

Definition assigned_at
    (shuffle : nat → list (option User) → list (option User)) (k : Z)
    (students : list (option User)) (i : nat) : list (option User) :=
  let shuffled := shuffle i (others students i) in
  slice0 (Z.min k (Z.of_nat (length shuffled))) shuffled.

(** Position [i] of [students] holds the student [e]. *)
Definition owner (students : list (option User)) (e : ObjectId) (i : nat)
    : Prop :=
  user_id <$> default None (students !! i) = Some e.

#[global] Instance owner_dec students e i : Decision (owner students e i).
Proof. unfold owner. apply _. Defined.

(** A record made at iteration [i] of the outer loop. *)
Definition made_at
    (shuffle : nat → list (option User) → list (option User))
    (examId : ObjectId) (numQ k : Z) (students : list (option User))
    (i : nat) (r : Evaluation) : Prop :=
  ∃ u v, students !! i = Some (Some u)
       ∧ Some v ∈ assigned_at shuffle k students i
       ∧ seeded examId numQ (user_id u) (user_id v) r.

(** What is known of the in-place random sort: it rearranges the array. *)
Definition is_shuffle
    (shuffle : nat → list (option User) → list (option User)) : Prop :=
  ∀ i l, shuffle i l ≡ₚ l.

Definition db_single : DB :=
  mkDB [alice; dave] [mkCourse 50 "CS1"] [exam_of 2] [mkSubmission 100 1] [].

(** A body value that [if (v)] skips. *)
Definition falsy (v : JsValue) : Prop := truthy v = false.

(** What the edit route leaves alone in an exam: its identity, and every
    field whose body value is falsy. *)
Definition kept_where_falsy (body : EditBody) (e e' : Exam) : Prop :=
  exam_id e' = exam_id e ∧ createdBy e' = createdBy e
  ∧ exam_course e' = exam_course e ∧ exam_batch e' = exam_batch e
  ∧ (falsy (body_title body) → title e' = title e)
  ∧ (falsy (body_startTime body) → startTime e' = startTime e)
  ∧ (falsy (body_endTime body) → endTime e' = endTime e)
  ∧ (falsy (body_numQuestions body) →
       numQuestions e' = numQuestions e ∧ questions e' = questions e)
  ∧ (falsy (body_k body) → exam_k e' = exam_k e).

(** The course of the request is already in the teacher's list. *)
Definition already_assigned (email courseCode : string) (db : DB) : Prop :=
  ∃ i teacher course,
    list_find (λ u, user_email u = email ∧ user_role u = "teacher")
              (Users db) = Some (i, teacher)
    ∧ findOne (λ c, course_code c = courseCode) (Courses db) = Some course
    ∧ course_id course ∈ enrolledCourses teacher.

(** A teacher already holding the course of [db_of]. *)
Definition db_assigned : DB :=
  mkDB [alice; mkUser 9 "Dave" "dave@x" "teacher" [50]%N]
       [mkCourse 50 "CS1"] [] [] [].

(** Stand-ins for the casts of values of another type: all fail. *)
Definition no_cast {A} : JsValue → option A := λ _, None.
Definition no_number : string → option Z := λ _, None.

(** ** unassignTeacherFromCourse *)

Definition unassignTeacherFromCourse (email courseCode : string) (db : DB)
    : Response * DB :=
  match list_find (λ u, user_email u = email ∧ user_role u = "teacher")
                  (Users db) with
  | None => (json 404 "Teacher not found", db)
  | Some (i, teacher) =>
      match findOne (λ c, course_code c = courseCode) (Courses db) with
      | None => (json 404 "Course not found", db)
      | Some course =>
          let courseId := course_id course in
          let teacher' :=
            mkUser (user_id teacher) (user_name teacher)
                   (user_email teacher) (user_role teacher)
                   (filter (λ id, ¬ id = courseId) (enrolledCourses teacher)) in
          (json 200 "Course unassigned from teacher successfully",
           set_Users (<[i := teacher']> (Users db)) db)
      end
  end.

(** ** deleteTeacher *)

(** [User.findOneAndDelete({ email, role: 'teacher' })]: the first match
    is removed. *)
Definition deleteTeacher (email : string) (db : DB) : Response * DB :=
  match list_find (λ u, user_email u = email ∧ user_role u = "teacher")
                  (Users db) with
  | None => (json 404 "Teacher not found", db)
  | Some (i, _) =>
      (json 200 "Teacher deleted successfully",
       set_Users (delete i (Users db)) db)
  end.

(** ** getAllTeachers *)

(** [.populate('enrolledCourses', 'name code')] of one user: the
    referenced courses that exist, in the order of the references. *)
Definition populate_courses (db : DB) (u : User) : list Course :=
  omap (λ id, findOne (λ c, course_id c = id) (Courses db))
       (enrolledCourses u).

Definition getAllTeachers (db : DB) : list (User * list Course) :=
  (λ u, (u, populate_courses db u))
    <$> find (λ u, user_role u = "teacher") (Users db).

(** ** POST /update-role *)

(** [`${v}`] of a body value (numbers are integral). *)
Definition template (v : JsValue) : string :=
  match v with
  | JsUndefined => "undefined"
  | JsNull => "null"
  | JsBool b => if b then "true" else "false"
  | JsNumber z => pretty z
  | JsString s => s
  end.

Section UpdateRole.

(** The string cast of a non-string value, and the roles the schema's
    validation lets [save()] store. *)
Variable castToString : JsValue → option string.
Variable roleAllowed : string → bool.

Definition update_role (email role : JsValue) (db : DB) : Response * DB :=
  if negb (truthy email) || negb (truthy role)
  then (json 400 "Email and role are required", db)
  else
    match string_path castToString email with
    | None => (json 500 "Internal server error", db)
    | Some email' =>
        match list_find (λ u, user_email u = email') (Users db) with
        | None => (json 404 "User not found", db)
        | Some (i, user) =>
            match string_path castToString role with
            | Some role' =>
                if roleAllowed role' then
                  let user' :=
                    mkUser (user_id user) (user_name user) (user_email user)
                           role' (enrolledCourses user) in
                  (json 200 ("Role updated to '" ++ template role ++ "' for "
                             ++ template email),
                   set_Users (<[i := user']> (Users db)) db)
                else (json 500 "Internal server error", db)
            | None => (json 500 "Internal server error", db)
            end
        end
    end.

End UpdateRole.

(** ** POST /schedule-exam *)

(** [req.body] of the scheduling route. *)
Record ScheduleBody := mkScheduleBody {
  sched_courseId : JsValue;
  sched_batchId : JsValue;
  sched_title : JsValue;
  sched_startTime : JsValue;
  sched_endTime : JsValue;
  sched_numQuestions : JsValue;
  sched_k : JsValue
}.

Section ScheduleExam.

(** The casts of the schema layer, [parseInt] ([None]: [NaN], which the
    number path refuses) and the identifier given to a new document. *)
Variable castToString : JsValue → option string.
Variable castToDate : JsValue → option Date.
Variable castToObjectId : JsValue → option ObjectId.
Variable parseInt : JsValue → option Z.
Variable newExamId : list Exam → ObjectId.

Definition schedule_exam (userId : ObjectId) (body : ScheduleBody) (db : DB)
    : Response * DB :=
  if negb (truthy (sched_courseId body)) || negb (truthy (sched_batchId body))
     || negb (truthy (sched_title body))
     || negb (truthy (sched_startTime body))
     || negb (truthy (sched_endTime body))
     || negb (truthy (sched_numQuestions body))
     || negb (truthy (sched_k body))
  then (json 400 "All fields are required including k parameter", db)
  else
    let questions_ := placeholder_questions (parseInt (sched_numQuestions body)) in
    match
      course ← castToObjectId (sched_courseId body);
      batch ← castToObjectId (sched_batchId body);
      title_ ← string_path castToString (sched_title body);
      startTime_ ← date_path castToDate (sched_startTime body);
      endTime_ ← date_path castToDate (sched_endTime body);
      numQuestions_ ← parseInt (sched_numQuestions body);
      k ← parseInt (sched_k body);
      Some (mkExam (newExamId (Exams db)) userId course batch title_
                   startTime_ endTime_ numQuestions_ questions_ k)
    with
    | Some exam =>
        (mkResponse 201 "Exam scheduled successfully" (Some exam),
         set_Exams (Exams db ++ [exam]) db)
    | None => (json 500 "Internal server error", db)
    end.

End ScheduleExam.

(** The questions of an exam are its [numQuestions] placeholders' worth:
    as many as [numQuestions], ten marks each. *)
Definition questions_in_step (e : Exam) : Prop :=
  length (questions e) = Z.to_nat (numQuestions e)
  ∧ Forall (λ q, maxMarks q = 10%Z) (questions e).

(** [totalMarks] as the exam list reports it, and as the questions add
    up. *)
Definition totalMarks (e : Exam) : Z := (numQuestions e * 10)%Z.

Definition sum_maxMarks (e : Exam) : Z :=
  foldr (λ q acc, (maxMarks q + acc)%Z) 0%Z (questions e).

(** The identifier of a populated student, and the records one iteration
    of the outer loop makes when every selected pair is new. *)
Definition oid (o : option User) : option ObjectId := user_id <$> o.

Definition seeds (examId : ObjectId) (numQ : Z) (u : User)
    (assigned : list (option User)) : list Evaluation :=
  omap (fmap (λ v, mkEvaluation examId (user_id u) (user_id v)
                     (replicate (Z.to_nat numQ) 0%Z) "" pending))
       assigned.

Definition chunk
    (shuffle : nat → list (option User) → list (option User))
    (examId : ObjectId) (numQ k : Z) (students : list (option User))
    (i : nat) : list Evaluation :=
  match students !! i with
  | Some (Some u) => seeds examId numQ u (assigned_at shuffle k students i)
  | _ => []
  end.

(** Stand-ins for the scheduling route's parameters: numbers parse and
    cast as themselves, strings denote dates, everything else fails. *)
Definition number_only : JsValue → option Z :=
  λ v, match v with JsNumber z => Some z | _ => None end.
Definition id_of_number : JsValue → option ObjectId :=
  λ v, match v with JsNumber z => Some (Z.to_N z) | _ => None end.
Definition date_of_string : JsValue → option Date :=
  λ v, match v with JsString s => Some (NewDate s) | _ => None end.
Definition next_id : list Exam → ObjectId :=
  λ exams, (N.of_nat (length exams) + 1000)%N.

Definition sample_schedule : ScheduleBody :=
  mkScheduleBody (JsNumber 50) (JsNumber 60) (JsString "Midterm")
                 (JsString "t0") (JsString "t1") (JsNumber 3) (JsNumber 2).

(** Two users that differ at most in the named field. *)
Definition same_but_courses (u u' : User) : Prop :=
  user_id u' = user_id u ∧ user_name u' = user_name u
  ∧ user_email u' = user_email u ∧ user_role u' = user_role u.

Definition same_but_role (u u' : User) : Prop :=
  user_id u' = user_id u ∧ user_name u' = user_name u
  ∧ user_email u' = user_email u
  ∧ enrolledCourses u' = enrolledCourses u.

(** ** enrollStudentsToBatch and POST /enroll-students *)

(** A batch document, with the fields the handlers read. *)
Record Batch := mkBatch {
  batch_id : ObjectId;
  batch_name : string;
  batch_course : ObjectId;
  batch_instructor : ObjectId;
  batch_students : list ObjectId
}.

(** The store of the enrolment handlers: the collections above and the
    batches. *)
Record Store := mkStore {
  store_db : DB;
  Batches : list Batch
}.

(** The answer of the enrolment handlers; the counts come with the 200. *)
Record EnrollResponse := mkEnrollResponse {
  enroll_status : nat;
  enroll_text : string;
  enroll_counts : option (nat * nat)
}.

Definition enroll_error (c : nat) (m : string) : EnrollResponse :=
  mkEnrollResponse c m None.

Section Enrollment.

(** The identifier [User.create] gives a new document, and the cast of the
    [batchId] of the request ([None]: [findById] rejects it). The password
    hash given to a created user is not kept: [User] has the fields the
    handlers read. *)
Variable newUserId : list User → ObjectId.
Variable castToObjectId : JsValue → option ObjectId.

(** [for (const studentData of students)]: find or create each user, add
    the batch's course to an existing user that lacks it (the document
    array's [includes] compares identifiers), and collect the ids. *)
Fixpoint enroll_loop (course : ObjectId) (students : list (string * string))
    (users : list User) (enrolledStudentIds : list ObjectId)
    : list User * list ObjectId :=
  match students with
  | [] => (users, enrolledStudentIds)
  | (name, email) :: rest =>
      match list_find (λ u, user_email u = email) users with
      | None =>
          let student := mkUser (newUserId users) name email "student"
                                [course] in
          enroll_loop course rest (users ++ [student])
                      (enrolledStudentIds ++ [user_id student])
      | Some (i, student) =>
          if bool_decide (course ∈ enrolledCourses student)
          then enroll_loop course rest users
                           (enrolledStudentIds ++ [user_id student])
          else
            let student' :=
              mkUser (user_id student) (user_name student)
                     (user_email student) (user_role student)
                     (enrolledCourses student ++ [course]) in
            enroll_loop course rest (<[i := student']> users)
                        (enrolledStudentIds ++ [user_id student])
      end
  end.

(** From [Batch.findById] on: the part the controller and the CSV route
    share. *)
Definition enroll_into (batchId : JsValue)
    (students : list (string * string)) (st : Store)
    : EnrollResponse * Store :=
  match castToObjectId batchId with
  | None => (enroll_error 500 "Failed to enroll students", st)
  | Some id =>
      match list_find (λ b, batch_id b = id) (Batches st) with
      | None => (enroll_error 404 "Batch not found", st)
      | Some (bi, batch) =>
          let '(users, enrolledStudentIds) :=
            enroll_loop (batch_course batch) students
                        (Users (store_db st)) [] in
          let newStudentIds :=
            filter (λ id, id ∉ batch_students batch) enrolledStudentIds in
          let batch' :=
            mkBatch (batch_id batch) (batch_name batch) (batch_course batch)
                    (batch_instructor batch)
                    (batch_students batch ++ newStudentIds) in
          (mkEnrollResponse 200 "Students enrolled successfully"
             (Some (length newStudentIds, length (batch_students batch'))),
           mkStore (set_Users users (store_db st))
                   (<[bi := batch']> (Batches st)))
      end
  end.

(** The controller: [students] is [None] when the body has no array
    there. *)
Definition enrollStudentsToBatch (batchId : JsValue)
    (students : option (list (string * string))) (st : Store)
    : EnrollResponse * Store :=
  match students with
  | Some students_ =>
      if truthy batchId then enroll_into batchId students_ st
      else (enroll_error 400 "Batch ID and students array are required", st)
  | None => (enroll_error 400 "Batch ID and students array are required", st)
  end.

End Enrollment.

(** How the enrolment lets a user list grow: the users that were there
    stay in place, keep their identity and gain at most the course at the
    end of their list; new users come after them, as students. *)
Definition gained (course : ObjectId) (u u' : User) : Prop :=
  same_but_courses u u'
  ∧ ((enrolledCourses u' = enrolledCourses u)
     ∨ ((course ∉ enrolledCourses u)
        ∧ enrolledCourses u' = (enrolledCourses u ++ [course])%list)).

Definition grown (course : ObjectId) (users users' : list User) : Prop :=
  ∃ olds created,
    users' = (olds ++ created)%list
    ∧ Forall2 (gained course) users olds
    ∧ Forall (λ u, user_role u = "student"
                   ∧ enrolledCourses u = [course]) created.

(** The user an e-mail address denotes, with the course, and its id. *)
Definition enrolled_as (course : ObjectId) (users : list User)
    (entry : string * string) (id : ObjectId) : Prop :=
  ∃ j u, list_find (λ u, user_email u = snd entry) users = Some (j, u)
         ∧ user_id u = id ∧ course ∈ enrolledCourses u.


(** A store with one batch of the course of [db_of], a request naming a
    member and a newcomer, and stand-ins for the identifiers. *)
Definition sample_store : Store :=
  mkStore (db_of 2) [mkBatch 60 "B1" 50 9 [1]%N].

Definition sample_students : list (string * string) :=
  [("Alice", "alice@x"); ("Erin", "erin@x")].

Definition next_user_id : list User → ObjectId :=
  λ users, (N.of_nat (length users) + 500)%N.

(** An identifier above every identifier in use. *)
Definition above_all_ids : list User → ObjectId :=
  λ users, N.succ (foldr N.max 0%N (user_id <$> users)).

(** ** The student CSV: GET /download-students-csv and POST /enroll-students *)

(** Texts are handled as the lists of the bytes of their UTF-8 encoding
    (taken well-formed), which is what the uploaded buffer holds. *)
Definition text (s : string) : list Ascii.ascii := String.list_ascii_of_string s.

(** The double quote, the comma and the line feed. *)
Definition QUOTE : Ascii.ascii := Ascii.ascii_of_nat 34.
Definition COMMA : Ascii.ascii := Ascii.ascii_of_nat 44.
Definition LF : Ascii.ascii := Ascii.ascii_of_nat 10.

Definition bytes (codes : list nat) : list Ascii.ascii := Ascii.ascii_of_nat <$> codes.

(** [s.split(c)] for a one-character separator: never empty. *)
Fixpoint split_on (c : Ascii.ascii) (l : list Ascii.ascii) : list (list Ascii.ascii) :=
  match l with
  | [] => [[]]
  | x :: l' =>
      if Ascii.eqb x c then [] :: split_on c l'
      else match split_on c l' with
           | [] => [[x]]
           | w :: ws => (x :: w) :: ws
           end
  end.

(** The encodings of the code points [trim] removes: the white space and
    the line terminators of the language. *)
Definition whitespace : list (list Ascii.ascii) :=
  [bytes [9]; bytes [10]; bytes [11]; bytes [12]; bytes [13]; bytes [32];
   bytes [194; 160]; bytes [225; 154; 128];
   bytes [226; 128; 128]; bytes [226; 128; 129]; bytes [226; 128; 130];
   bytes [226; 128; 131]; bytes [226; 128; 132]; bytes [226; 128; 133];
   bytes [226; 128; 134]; bytes [226; 128; 135]; bytes [226; 128; 136];
   bytes [226; 128; 137]; bytes [226; 128; 138];
   bytes [226; 128; 168]; bytes [226; 128; 169]; bytes [226; 128; 175];
   bytes [226; 129; 159]; bytes [227; 128; 128]; bytes [239; 187; 191]].

Fixpoint strip_prefix (p l : list Ascii.ascii) : option (list Ascii.ascii) :=
  match p, l with
  | [], _ => Some l
  | a :: p', b :: l' => if Ascii.eqb a b then strip_prefix p' l' else None
  | _ :: _, [] => None
  end.

Fixpoint strip_any (ps : list (list Ascii.ascii)) (l : list Ascii.ascii)
    : option (list Ascii.ascii) :=
  match ps with
  | [] => None
  | p :: ps' =>
      match strip_prefix p l with
      | Some l' => Some l'
      | None => strip_any ps' l
      end
  end.

(** Removes leading occurrences of the patterns, at most [n] of them. *)
Fixpoint strip_leading (ps : list (list Ascii.ascii)) (n : nat) (l : list Ascii.ascii)
    : list Ascii.ascii :=
  match n with
  | 0 => l
  | S n' =>
      match strip_any ps l with
      | Some l' => strip_leading ps n' l'
      | None => l
      end
  end.

(** [s.trim()]. *)
Definition trim (l : list Ascii.ascii) : list Ascii.ascii :=
  let l1 := strip_leading whitespace (length l) l in
  reverse (strip_leading (reverse <$> whitespace) (length l1) (reverse l1)).

(** [s.replace] of every double quote by nothing. *)
Definition unquote (l : list Ascii.ascii) : list Ascii.ascii :=
  filter (λ x, x ≠ QUOTE) l.

(** One data line of the upload: split at the commas, each item trimmed
    and then freed of its double quotes; the first two items are the name
    and the e-mail, kept when both are non-empty. *)
Definition parse_line (line : list Ascii.ascii) : option (string * string) :=
  match (λ item, unquote (trim item)) <$> split_on COMMA line with
  | name :: email :: _ =>
      if bool_decide (name ≠ []) && bool_decide (email ≠ [])
      then Some (String.string_of_list_ascii name,
                 String.string_of_list_ascii email)
      else None
  | _ => None
  end.

(** The non-blank lines of the file and, when there are at least two, the
    students of the lines after the first ([None]: the 400 of a file
    without a data row). *)
Definition csv_lines (csvContent : string) : list (list Ascii.ascii) :=
  filter (λ line, trim line ≠ []) (split_on LF (text csvContent)).

Definition parse_students (csvContent : string)
    : option (list (string * string)) :=
  let lines := csv_lines csvContent in
  if decide (length lines < 2) then None
  else Some (omap parse_line (tail lines)).

(** The double quote and the line feed, as one-character strings. *)
Definition quote : string := String QUOTE EmptyString.
Definition newline : string := String LF EmptyString.

(** The text the download route builds from the populated students of a
    batch (name and e-mail of each), the course and the batch name. *)
Definition csv_row (courseName courseCode batchName : string)
    (student : string * string) : string :=
  quote ++ fst student ++ quote ++ "," ++ quote ++ snd student ++ quote
  ++ "," ++ quote ++ courseName ++ " (" ++ courseCode ++ ")" ++ quote
  ++ "," ++ quote ++ batchName ++ quote ++ newline.

Definition students_csv (students : list (string * string))
    (courseName courseCode batchName : string) : string :=
  foldl (λ csvContent student,
           csvContent ++ csv_row courseName courseCode batchName student)
        ("Name,Email,Course,Batch" ++ newline) students.

Section EnrollRoute.

Variable newUserId : list User → ObjectId.
Variable castToObjectId : JsValue → option ObjectId.

(** POST /enroll-students: [csvFile] is the text of the uploaded file,
    [None] without a file. *)
Definition enroll_students_route (batchId : JsValue)
    (csvFile : option string) (st : Store) : EnrollResponse * Store :=
  match csvFile with
  | Some csvContent =>
      if truthy batchId then
        match parse_students csvContent with
        | Some students =>
            enroll_into newUserId castToObjectId batchId students st
        | None =>
            (enroll_error 400
               "CSV file must contain at least a header and one data row",
             st)
        end
      else (enroll_error 400 "Batch ID and CSV file are required", st)
  | None => (enroll_error 400 "Batch ID and CSV file are required", st)
  end.

End EnrollRoute.

(** A text without line feed, comma or double quote. *)
Definition plain_field (s : string) : Prop :=
  (LF ∉ text s) ∧ (COMMA ∉ text s) ∧ (QUOTE ∉ text s).

Definition sample_csv : string :=
  students_csv sample_students "Algorithms" "CS1" "B1".

(** A data line of the download, without its line feed, and the header
    line. *)
Definition row_text (courseName courseCode batchName : string)
    (student : string * string) : list Ascii.ascii :=
  (QUOTE :: text (fst student) ++ [QUOTE])
  ++ COMMA :: (QUOTE :: text (snd student) ++ [QUOTE])
  ++ COMMA :: (QUOTE :: (text courseName ++ text " (" ++ text courseCode
                         ++ text ")") ++ [QUOTE])
  ++ COMMA :: (QUOTE :: text batchName ++ [QUOTE]).

Definition header_text : list Ascii.ascii := text "Name,Email,Course,Batch".

(** What a student of the download must look like to come back from the
    upload. *)
Definition returnable (student : string * string) : Prop :=
  plain_field (fst student) ∧ plain_field (snd student)
  ∧ fst student ≠ "" ∧ snd student ≠ "".

(** A byte text that can stand as a name or an e-mail of the download. *)
Definition returnable_text (l : list Ascii.ascii) : Prop :=
  (LF ∉ l) ∧ (COMMA ∉ l) ∧ (QUOTE ∉ l) ∧ l ≠ [].

(** ** getEnrolledStudents and GET /enrolled-students *)

(** The answer of the student list: the names and e-mails come with the
    200. *)
Record StudentsResponse := mkStudentsResponse {
  students_status : nat;
  students_text : string;
  students_list : option (list (string * string))
}.

(** [.populate('students', 'name email')]: the members whose user
    document exists, in the order of the batch. *)
Definition populate_students (db : DB) (batch : Batch) : list User :=
  omap (λ id, findOne (λ u, user_id u = id) (Users db))
       (batch_students batch).

Section EnrolledStudents.

Variable castToObjectId : JsValue → option ObjectId.

Definition getEnrolledStudents (courseId batchId : JsValue) (st : Store)
    : StudentsResponse :=
  if negb (truthy courseId) || negb (truthy batchId)
  then mkStudentsResponse 400 "Course ID and Batch ID are required" None
  else
    match castToObjectId batchId with
    | None =>
        mkStudentsResponse 500 "Failed to fetch enrolled students" None
    | Some id =>
        match findOne (λ b, batch_id b = id) (Batches st) with
        | None => mkStudentsResponse 404 "Batch not found" None
        | Some batch =>
            mkStudentsResponse 200 ""
              (Some ((λ student, (user_name student, user_email student))
                       <$> populate_students (store_db st) batch))
        end
    end.

End EnrolledStudents.

(** * Properties *)

Local Close Scope string_scope.

(** ** Array primitives *)

Lemma filter_index_all {A} (p : nat → bool) (start : nat) (l : list A) :
  (∀ j, start ≤ j → p j = true) → filter_index p start l = l.
Proof.
  revert start. induction l as [|x l IH]; intros start Hp; [done|].
  simpl. rewrite Hp by lia. f_equal. apply IH. intros j Hj. apply Hp. lia.
Qed.

Lemma filter_index_delete_from {A} (l : list A) (start i : nat) :
  filter_index (λ index, negb (Nat.eqb index (start + i))) start l
  = delete i l.
Proof.
  revert start i. induction l as [|x l IH]; intros start i; [done|].
  destruct i as [|i]; simpl.
  - rewrite Nat.add_0_r, Nat.eqb_refl. simpl.
    apply filter_index_all. intros j Hj.
    apply negb_true_iff, Nat.eqb_neq. lia.
  - replace (Nat.eqb start (start + S i)) with false
      by (symmetry; apply Nat.eqb_neq; lia).
    simpl. f_equal. rewrite <- (IH (S start) i).
    f_equal. replace (S start + i) with (start + S i) by lia. done.
Qed.

(** [students.filter((_, index) => index !== i)] drops position [i]. *)
Lemma filter_index_delete {A} (l : list A) (i : nat) :
  filter_index (λ index, negb (Nat.eqb index i)) 0 l = delete i l.
Proof. apply (filter_index_delete_from l 0 i). Qed.

Lemma elem_of_delete_lookup {A} (l : list A) (i : nat) (x : A) :
  x ∈ delete i l → ∃ j, j ≠ i ∧ l !! j = Some x.
Proof.
  intros [j Hj]%list_elem_of_lookup.
  destruct (decide (j < i)) as [Hlt|Hge].
  - exists j. rewrite list_lookup_delete_lt in Hj by done. split; [lia|done].
  - exists (S j). rewrite list_lookup_delete_ge in Hj by lia. split; [lia|done].
Qed.

Lemma filter_none {A} (P : A → Prop) `{∀ x, Decision (P x)} (l : list A) :
  Forall (λ x, ¬ P x) l → filter P l = [].
Proof.
  induction 1 as [|x l Hx _ IH]; [done|].
  by rewrite filter_cons_False.
Qed.

Lemma slice0_subset {A} (end_ : Z) (l : list A) (x : A) :
  x ∈ slice0 end_ l → x ∈ l.
Proof.
  unfold slice0. intros (i & Hi & _)%elem_of_take.
  apply list_elem_of_lookup. eauto.
Qed.

Lemma slice0_length {A} (end_ : Z) (l : list A) :
  (0 ≤ end_)%Z → length (slice0 end_ l) ≤ Z.to_nat end_.
Proof.
  intros Hend. unfold slice0.
  destruct (Z.ltb_spec end_ 0); [lia|].
  rewrite length_take. lia.
Qed.

Lemma slice0_nil {A} (end_ : Z) : slice0 end_ (@nil A) = [].
Proof. unfold slice0. by rewrite take_nil. Qed.

Lemma new_Array_fill_Some (n v : Z) (a : list Z) :
  new_Array_fill n v = Some a →
  a = replicate (Z.to_nat n) v ∧ (0 ≤ n < 2 ^ 32)%Z.
Proof.
  unfold new_Array_fill.
  destruct (Z.leb_spec 0 n), (Z.ltb_spec n (2 ^ 32)); simpl;
    intros [= <-]; split; [done|lia].
Qed.

Lemma findOne_None {A} (P : A → Prop) `{∀ x, Decision (P x)} (l : list A) :
  findOne P l = None ↔ Forall (λ x, ¬ P x) l.
Proof.
  unfold findOne. rewrite fmap_None. apply list_find_None.
Qed.

Lemma findOne_Some {A} (P : A → Prop) `{∀ x, Decision (P x)}
    (l : list A) (x : A) :
  findOne P l = Some x → x ∈ l ∧ P x.
Proof.
  unfold findOne. intros ([i y] & Hfind & ->)%fmap_Some.
  apply list_find_Some in Hfind as (Hi & HP & _). simpl.
  split; [|done]. apply list_elem_of_lookup. eauto.
Qed.

(** ** The inner loop *)

Lemma fresh_for_nil (evs : list Evaluation) : fresh_for evs [].
Proof. split; [constructor|]. intros r Hr. by apply elem_of_nil in Hr. Qed.

Lemma fresh_for_cons (evs created : list Evaluation) (r : Evaluation) :
  pair_of r ∉ pair_of <$> evs →
  fresh_for (evs ++ [r]) created →
  fresh_for evs (r :: created).
Proof.
  intros Hr [Hnd Hout]. split.
  - rewrite fmap_cons. constructor; [|done].
    intros (r' & Heq & Hin)%list_elem_of_fmap.
    apply (Hout r' Hin). rewrite fmap_app, elem_of_app. right.
    rewrite <- Heq. apply list_elem_of_fmap_2, list_elem_of_singleton. done.
  - intros r' [->|Hin]%elem_of_cons; [done|].
    intros Hc. apply (Hout r' Hin). rewrite fmap_app, elem_of_app. by left.
Qed.

Lemma fresh_for_app (evs c1 c2 : list Evaluation) :
  fresh_for evs c1 → fresh_for (evs ++ c1) c2 → fresh_for evs (c1 ++ c2).
Proof.
  intros [Hnd1 Hout1] [Hnd2 Hout2]. split.
  - rewrite fmap_app. apply NoDup_app. split_and!; [done| |done].
    intros p (r1 & -> & Hin1)%list_elem_of_fmap
             (r2 & Heq & Hin2)%list_elem_of_fmap.
    apply (Hout2 r2 Hin2). rewrite <- Heq, fmap_app, elem_of_app. right.
    by apply list_elem_of_fmap_2.
  - intros r [Hin|Hin]%elem_of_app; [by apply Hout1|].
    intros Hc. apply (Hout2 r Hin). rewrite fmap_app, elem_of_app. by left.
Qed.

Lemma no_same_pair_fresh examId e v a (evs : list Evaluation) :
  findOne (same_pair examId e v) evs = None →
  pair_of (mkEvaluation examId e v a "" pending) ∉ pair_of <$> evs.
Proof.
  intros Hnone%findOne_None (r & Heq & Hin)%list_elem_of_fmap.
  rewrite Forall_forall in Hnone. apply (Hnone r Hin).
  unfold pair_of in Heq. simpl in Heq. injection Heq as -> -> ->.
  by unfold same_pair.
Qed.

Lemma assign_evaluatees_spec examId numQ er assigned evs :
  ∃ created,
    store_of (assign_evaluatees examId numQ er assigned evs) = evs ++ created
    ∧ length created ≤ length assigned
    ∧ Forall (λ r, ∃ u v, er = Some u ∧ Some v ∈ assigned
                 ∧ seeded examId numQ (user_id u) (user_id v) r) created
    ∧ fresh_for evs created.
Proof.
  revert evs. induction assigned as [|ee rest IH]; intros evs.
  { exists []. simpl. rewrite app_nil_r. split_and!; auto using fresh_for_nil. }
  assert (Hnone : ∃ created : list Evaluation,
    evs = evs ++ created ∧ length created ≤ length (ee :: rest)
    ∧ Forall (λ r, ∃ u v, er = Some u ∧ Some v ∈ ee :: rest
                 ∧ seeded examId numQ (user_id u) (user_id v) r) created
    ∧ fresh_for evs created).
  { exists []. rewrite app_nil_r. simpl.
    split_and!; auto using fresh_for_nil with lia. }
  simpl. destruct er as [u|], ee as [v|]; try exact Hnone.
  destruct (findOne _ evs) eqn:Hfind.
  - destruct (IH evs) as (created & Hst & Hlen & Hall & Hfresh).
    exists created. split_and!; [done|simpl; lia| |done].
    eapply Forall_impl; [exact Hall|]. intros r (u' & v' & ? & ? & ?).
    exists u', v'. split_and!; [done| |done]. by apply elem_of_cons; right.
  - destruct (new_Array_fill numQ 0) as [zeros|] eqn:Hnew; [|exact Hnone].
    apply new_Array_fill_Some in Hnew as [-> Hrange].
    set (r0 := mkEvaluation _ _ _ _ _ _).
    destruct (IH (evs ++ [r0])) as (created & Hst & Hlen & Hall & Hfresh).
    exists (r0 :: created). split_and!.
    + rewrite Hst, <- app_assoc. done.
    + simpl. lia.
    + constructor.
      * exists u, v. split_and!; [done|by apply elem_of_cons; left|done].
      * eapply Forall_impl; [exact Hall|]. intros r (u' & v' & ? & ? & ?).
        exists u', v'. split_and!; [done| |done]. by apply elem_of_cons; right.
    + apply fresh_for_cons; [|done]. by apply no_same_pair_fresh.
Qed.

(** ** The outer loop *)

Lemma evaluatees_of_app examId e (l1 l2 : list Evaluation) :
  evaluatees_of examId e (l1 ++ l2)
  = evaluatees_of examId e l1 ++ evaluatees_of examId e l2.
Proof. unfold evaluatees_of. by rewrite filter_app, fmap_app. Qed.

Section Loop.

Variable shuffle : nat → list (option User) → list (option User).
Variables (examId : ObjectId) (numQ k : Z).
Variable students : list (option User).

Lemma assign_for_spec (i : nat) (evs : list Evaluation) :
  ∃ created,
    store_of (assign_for shuffle examId numQ k students i evs)
    = evs ++ created
    ∧ length created ≤ length (assigned_at shuffle k students i)
    ∧ Forall (made_at shuffle examId numQ k students i) created
    ∧ fresh_for evs created.
Proof.
  destruct (assign_evaluatees_spec examId numQ
              (default None (students !! i))
              (assigned_at shuffle k students i) evs)
    as (created & Hst & Hlen & Hall & Hfresh).
  exists created. split_and!; [exact Hst|exact Hlen| |exact Hfresh].
  eapply Forall_impl; [exact Hall|].
  intros r (u & v & Hu & Hv & Hr). exists u, v. split_and!; [|done..].
  destruct (students !! i) as [o|]; simpl in Hu; by subst.
Qed.

Lemma made_at_owner (i : nat) (r : Evaluation) :
  made_at shuffle examId numQ k students i r →
  owner students (evaluator r) i.
Proof.
  intros (u & v & Hu & _ & -> & _). unfold owner. by rewrite Hu.
Qed.

Lemma assign_loop_spec (indices : list nat) (evs : list Evaluation) :
  ∃ created,
    store_of (assign_loop shuffle examId numQ k students indices evs)
    = evs ++ created
    ∧ fresh_for evs created
    ∧ Forall (λ r, ∃ i, i ∈ indices
                 ∧ made_at shuffle examId numQ k students i r) created
    ∧ ∀ e, length (evaluatees_of examId e created)
           ≤ sum_list_with (λ i, length (assigned_at shuffle k students i))
                           (filter (owner students e) indices).
Proof.
  revert evs. induction indices as [|i indices IH]; intros evs.
  { exists []. simpl. rewrite app_nil_r.
    split_and!; auto using fresh_for_nil. }
  destruct (assign_for_spec i evs) as (c1 & Hst1 & Hlen1 & Hall1 & Hfr1).
  assert (Hhere : Forall (λ r, ∃ j, j ∈ i :: indices
                    ∧ made_at shuffle examId numQ k students j r) c1).
  { eapply Forall_impl; [exact Hall1|]. intros r Hr.
    exists i. split; [by apply elem_of_cons; left|done]. }
  assert (Hcount : ∀ e, length (evaluatees_of examId e c1)
            ≤ sum_list_with
                (λ i, length (assigned_at shuffle k students i))
                (filter (owner students e) [i])).
  { intros e. unfold evaluatees_of. rewrite length_fmap.
    destruct (decide (owner students e i)) as [Ho|Ho].
    - rewrite (filter_cons_True _ _ _ Ho). simpl.
      pose proof (length_filter
                    (λ r, ev_exam r = examId ∧ evaluator r = e) c1). lia.
    - rewrite filter_none; [simpl; lia|].
      eapply Forall_impl; [exact Hall1|].
      intros r Hr%made_at_owner [_ <-]. done. }
  simpl. destruct (assign_for shuffle examId numQ k students i evs)
    as [evs'|evs'] eqn:Hstep; simpl in Hst1; subst evs'.
  - destruct (IH (evs ++ c1)) as (c2 & Hst2 & Hfr2 & Hall2 & Hcount2).
    exists (c1 ++ c2). split_and!.
    + rewrite Hst2, <- app_assoc. done.
    + by apply fresh_for_app.
    + apply Forall_app. split; [done|].
      eapply Forall_impl; [exact Hall2|]. intros r (j & Hj & Hr).
      exists j. split; [by apply elem_of_cons; right|done].
    + intros e. specialize (Hcount e). specialize (Hcount2 e).
      rewrite evaluatees_of_app, length_app.
      change (i :: indices) with ([i] ++ indices).
      rewrite filter_app, sum_list_with_app. lia.
  - exists c1. split_and!; [done|done|done|].
    intros e. specialize (Hcount e).
    change (i :: indices) with ([i] ++ indices).
    rewrite filter_app, sum_list_with_app. lia.
Qed.

End Loop.

(** ** The handler *)

Lemma set_Evaluations_same (db : DB) : set_Evaluations (Evaluations db) db = db.
Proof. by destruct db. Qed.

Lemma send_solutions_spec shuffle teacherId examId db :
  ∃ created,
    send_solutions_db shuffle teacherId examId db
    = set_Evaluations (Evaluations db ++ created) db
    ∧ fresh_for (Evaluations db) created
    ∧ Forall (λ r, ∃ exam i,
                exam_of_teacher teacherId examId db = Some exam
                ∧ made_at shuffle examId (numQuestions exam) (exam_k exam)
                          (students_of examId db) i r) created
    ∧ ∀ e exam, exam_of_teacher teacherId examId db = Some exam →
        length (evaluatees_of examId e created)
        ≤ sum_list_with
            (λ i, length (assigned_at shuffle (exam_k exam)
                                      (students_of examId db) i))
            (filter (owner (students_of examId db) e)
                    (seq 0 (length (students_of examId db)))).
Proof.
  assert (Hsame : ∃ created : list Evaluation,
    db = set_Evaluations (Evaluations db ++ created) db
    ∧ fresh_for (Evaluations db) created
    ∧ Forall (λ r, ∃ exam i,
                exam_of_teacher teacherId examId db = Some exam
                ∧ made_at shuffle examId (numQuestions exam) (exam_k exam)
                          (students_of examId db) i r) created
    ∧ ∀ e exam, exam_of_teacher teacherId examId db = Some exam →
        length (evaluatees_of examId e created)
        ≤ sum_list_with
            (λ i, length (assigned_at shuffle (exam_k exam)
                                      (students_of examId db) i))
            (filter (owner (students_of examId db) e)
                    (seq 0 (length (students_of examId db))))).
  { exists []. rewrite app_nil_r, set_Evaluations_same.
    split_and!; auto using fresh_for_nil. intros. simpl. lia. }
  unfold send_solutions_db, send_solutions.
  fold (exam_of_teacher teacherId examId db).
  destruct (exam_of_teacher teacherId examId db) as [exam|] eqn:Hexam;
    [|exact Hsame].
  case_decide; [exact Hsame|].
  fold (students_of examId db).
  destruct (assign_loop_spec shuffle examId (numQuestions exam) (exam_k exam)
              (students_of examId db)
              (seq 0 (length (students_of examId db))) (Evaluations db))
    as (created & Hst & Hfresh & Hall & Hcount).
  exists created. split_and!.
  - destruct (assign_loop _ _ _ _ _ _ _); simpl in Hst |- *; by rewrite Hst.
  - done.
  - eapply Forall_impl; [exact Hall|]. intros r (i & _ & Hr). eauto.
  - intros e exam' [= <-]. apply Hcount.
Qed.

(** ** Submitters as a set *)

Lemma students_of_length examId db :
  length (students_of examId db) = length (submitters examId db).
Proof. unfold students_of, submitters. by rewrite !length_fmap. Qed.

Lemma students_of_lookup examId db i u :
  students_of examId db !! i = Some (Some u) →
  submitters examId db !! i = Some (user_id u).
Proof.
  unfold students_of, submitters. rewrite !list_lookup_fmap.
  destruct (find _ _ !! i) as [sub|]; simpl; [|done].
  intros [= Hpop]. apply findOne_Some in Hpop as [_ ->]. done.
Qed.

Lemma students_of_unique examId db i j u v :
  one_submission_each examId db →
  students_of examId db !! i = Some (Some u) →
  students_of examId db !! j = Some (Some v) →
  user_id u = user_id v → i = j.
Proof.
  intros Hnd Hi%students_of_lookup Hj%students_of_lookup Heq.
  rewrite <- Heq in Hj. exact (NoDup_lookup _ _ _ _ Hnd Hi Hj).
Qed.

Lemma owner_inv students e i :
  owner students e i → ∃ u, students !! i = Some (Some u) ∧ user_id u = e.
Proof.
  unfold owner. destruct (students !! i) as [[u|]|]; simpl; try done.
  intros [= <-]. eauto.
Qed.

Lemma NoDup_all_equal_length {A} (l : list A) :
  NoDup l → (∀ x y, x ∈ l → y ∈ l → x = y) → length l ≤ 1.
Proof.
  intros Hnd Heq. destruct l as [|a [|b l]]; simpl; [lia..|].
  exfalso. apply NoDup_cons in Hnd as [Hnotin _]. apply Hnotin.
  rewrite (Heq a b); [| |]; rewrite ?elem_of_cons; auto.
Qed.

Lemma sum_list_with_short {A} (f : A → nat) (l : list A) (B : nat) :
  length l ≤ 1 → (∀ x, x ∈ l → f x ≤ B) → sum_list_with f l ≤ B.
Proof.
  destruct l as [|a [|b l]]; simpl; intros Hlen Hf; [lia| |lia].
  specialize (Hf a). rewrite list_elem_of_singleton in Hf.
  specialize (Hf eq_refl). lia.
Qed.

Section Shuffled.

Variable shuffle : nat → list (option User) → list (option User).
Hypothesis shuffle_perm : is_shuffle shuffle.

Lemma assigned_at_elem k students i v :
  Some v ∈ assigned_at shuffle k students i →
  ∃ j, j ≠ i ∧ students !! j = Some (Some v).
Proof.
  unfold assigned_at. intros Hin%slice0_subset.
  rewrite (shuffle_perm i _) in Hin. unfold others in Hin.
  rewrite filter_index_delete in Hin.
  by apply elem_of_delete_lookup.
Qed.

Lemma assigned_at_length k students i :
  (0 ≤ k)%Z → i < length students →
  length (assigned_at shuffle k students i)
  ≤ Nat.min (Z.to_nat k) (length students - 1).
Proof.
  intros Hk Hi. unfold assigned_at.
  assert (Hlen : length (shuffle i (others students i))
                 = length students - 1).
  { rewrite (shuffle_perm i _). unfold others.
    rewrite filter_index_delete. apply length_delete.
    by apply lookup_lt_is_Some. }
  etrans; [apply slice0_length; lia|]. rewrite Hlen. lia.
Qed.

(** A record made by the loop joins two distinct submitters. *)
Lemma made_at_submitters examId db numQ k i r :
  one_submission_each examId db →
  made_at shuffle examId numQ k (students_of examId db) i r →
  evaluator r ≠ evaluatee r
  ∧ evaluator r ∈ submitters examId db
  ∧ evaluatee r ∈ submitters examId db
  ∧ ev_exam r = examId.
Proof.
  intros Hnd (u & v & Hu & Hv & -> & _). simpl.
  apply assigned_at_elem in Hv as (j & Hji & Hv).
  split_and!; [| | |done].
  - intros Heq. apply Hji. symmetry.
    exact (students_of_unique _ _ _ _ _ _ Hnd Hu Hv Heq).
  - apply list_elem_of_lookup. exists i. by apply students_of_lookup.
  - apply list_elem_of_lookup. exists j. by apply students_of_lookup.
Qed.

(** The cap of one run, for submitters that form a set. *)
Lemma run_cap examId db k e :
  one_submission_each examId db → (0 ≤ k)%Z →
  sum_list_with
    (λ i, length (assigned_at shuffle k (students_of examId db) i))
    (filter (owner (students_of examId db) e)
            (seq 0 (length (students_of examId db))))
  ≤ Nat.min (Z.to_nat k) (length (submitters examId db) - 1).
Proof.
  intros Hnd Hk. apply sum_list_with_short.
  - apply NoDup_all_equal_length.
    + apply NoDup_filter, NoDup_seq.
    + intros a b [Ha _]%list_elem_of_filter [Hb _]%list_elem_of_filter.
      apply owner_inv in Ha as (u & Hu & Hue).
      apply owner_inv in Hb as (v & Hv & Hve).
      apply (students_of_unique _ _ _ _ _ _ Hnd Hu Hv). congruence.
  - intros a [_ Ha]%list_elem_of_filter. apply elem_of_seq in Ha.
    rewrite <- students_of_length.
    apply assigned_at_length; [done|lia].
Qed.

End Shuffled.

(** ** Repeated invocation *)

Lemma send_solutions_n_spec shuffles teacherId examId db :
  ∃ created,
    send_solutions_n shuffles teacherId examId db
    = set_Evaluations (Evaluations db ++ created) db
    ∧ fresh_for (Evaluations db) created
    ∧ Forall (λ r, ∃ shuffle exam i,
                shuffle ∈ shuffles
                ∧ exam_of_teacher teacherId examId db = Some exam
                ∧ made_at shuffle examId (numQuestions exam) (exam_k exam)
                          (students_of examId db) i r) created
    ∧ ∀ e exam, exam_of_teacher teacherId examId db = Some exam →
        length (evaluatees_of examId e created)
        ≤ sum_list_with
            (λ shuffle,
               sum_list_with
                 (λ i, length (assigned_at shuffle (exam_k exam)
                                           (students_of examId db) i))
                 (filter (owner (students_of examId db) e)
                         (seq 0 (length (students_of examId db)))))
            shuffles.
Proof.
  revert db. induction shuffles as [|shuffle rest IH]; intros db.
  { exists []. simpl. rewrite app_nil_r, set_Evaluations_same.
    split_and!; auto using fresh_for_nil. }
  destruct (send_solutions_spec shuffle teacherId examId db)
    as (c1 & Hdb1 & Hfr1 & Hall1 & Hcount1).
  simpl. rewrite Hdb1.
  pose proof (IH (set_Evaluations (Evaluations db ++ c1) db)) as IH1.
  change (students_of examId (set_Evaluations (Evaluations db ++ c1) db))
    with (students_of examId db) in IH1.
  change (exam_of_teacher teacherId examId
            (set_Evaluations (Evaluations db ++ c1) db))
    with (exam_of_teacher teacherId examId db) in IH1.
  change (Evaluations (set_Evaluations (Evaluations db ++ c1) db))
    with (Evaluations db ++ c1) in IH1.
  destruct IH1 as (c2 & Hdb2 & Hfr2 & Hall2 & Hcount2).
  exists (c1 ++ c2). split_and!.
  - rewrite Hdb2. unfold set_Evaluations. simpl. by rewrite app_assoc.
  - by apply fresh_for_app.
  - apply Forall_app. split.
    + eapply Forall_impl; [exact Hall1|]. intros r (exam & i & ? & ?).
      exists shuffle, exam, i. split_and!; [by apply elem_of_cons; left|done..].
    + eapply Forall_impl; [exact Hall2|].
      intros r (shuffle' & exam & i & ? & ? & ?).
      exists shuffle', exam, i.
      split_and!; [by apply elem_of_cons; right|done..].
  - intros e exam Hexam. rewrite evaluatees_of_app, length_app. simpl.
    specialize (Hcount1 e exam Hexam). specialize (Hcount2 e exam Hexam).
    lia.
Qed.

(** ** The claims on the assignment *)

(** C1. In one run of send-solutions over submitters that form a set (one
    submission per student), with the in-place sort rearranging its array,
    every evaluation record created has an evaluator different from its
    evaluatee. *)
Theorem send_solutions_never_self shuffle teacherId examId db :
  is_shuffle shuffle →
  one_submission_each examId db →
  ∃ created,
    Evaluations (send_solutions_db shuffle teacherId examId db)
    = Evaluations db ++ created
    ∧ Forall (λ r, evaluator r ≠ evaluatee r) created.
Proof.
  intros Hsh Hnd.
  destruct (send_solutions_spec shuffle teacherId examId db)
    as (created & Hdb & _ & Hall & _).
  exists created. split; [by rewrite Hdb|].
  eapply Forall_impl; [exact Hall|]. intros r (exam & i & _ & Hr).
  by apply (made_at_submitters shuffle Hsh _ _ _ _ _ _ Hnd) in Hr as [? _].
Qed.

(** C2. In one run over a set of [S] submitters of an exam with [k ≥ 0],
    the records created give each evaluator at most [min(k, S - 1)]
    evaluatees. *)
Theorem send_solutions_at_most_k shuffle teacherId examId db exam e :
  is_shuffle shuffle →
  one_submission_each examId db →
  exam_of_teacher teacherId examId db = Some exam →
  (0 ≤ exam_k exam)%Z →
  ∃ created,
    Evaluations (send_solutions_db shuffle teacherId examId db)
    = Evaluations db ++ created
    ∧ length (evaluatees_of examId e created)
      ≤ Nat.min (Z.to_nat (exam_k exam)) (length (submitters examId db) - 1).
Proof.
  intros Hsh Hnd Hexam Hk.
  destruct (send_solutions_spec shuffle teacherId examId db)
    as (created & Hdb & _ & _ & Hcount).
  exists created. split; [by rewrite Hdb|].
  etrans; [exact (Hcount e exam Hexam)|]. by apply run_cap.
Qed.

(** C3. Over any number of successive runs for the same exam, each run
    seeing the records of the previous ones, no (exam, evaluator,
    evaluatee) pair already in the store is created again, and no pair is
    created twice. *)
Theorem send_solutions_no_duplicate_pair shuffles teacherId examId db :
  ∃ created,
    Evaluations (send_solutions_n shuffles teacherId examId db)
    = Evaluations db ++ created
    ∧ (∀ r, r ∈ created → pair_of r ∉ pair_of <$> Evaluations db)
    ∧ NoDup (pair_of <$> created).
Proof.
  destruct (send_solutions_n_spec shuffles teacherId examId db)
    as (created & Hdb & [Hnd Hout] & _).
  exists created. rewrite Hdb. done.
Qed.

(** C6. Every record created by a run carries the exam id, a mark vector
    of exactly [numQuestions] zeros, an empty feedback and the status
    [pending]. *)
Theorem send_solutions_seeds_zero_marks shuffle teacherId examId db :
  ∃ created,
    Evaluations (send_solutions_db shuffle teacherId examId db)
    = Evaluations db ++ created
    ∧ Forall (λ r, ∃ exam,
                exam_of_teacher teacherId examId db = Some exam
                ∧ ev_exam r = examId
                ∧ Z.of_nat (length (marks r)) = numQuestions exam
                ∧ Forall (λ m, m = 0%Z) (marks r)
                ∧ feedback r = EmptyString
                ∧ status r = pending) created.
Proof.
  destruct (send_solutions_spec shuffle teacherId examId db)
    as (created & Hdb & _ & Hall & _).
  exists created. split; [by rewrite Hdb|].
  eapply Forall_impl; [exact Hall|].
  intros r (exam & i & Hexam & u & v & _ & _ & -> & Hrange).
  exists exam. simpl. split_and!; [done|done| | |done|done].
  - rewrite length_replicate. lia.
  - apply Forall_replicate. done.
Qed.

(** C7. With no submitter or a single one (and the sort returning a
    rearrangement), a run creates nothing: the store is unchanged, and the
    answer is 404, 400 (no submission) or 200, never the 500 of an
    internal error. *)
Theorem send_solutions_few_submitters shuffle teacherId examId db :
  is_shuffle shuffle →
  length (submitters examId db) ≤ 1 →
  send_solutions shuffle teacherId examId db
  = (match exam_of_teacher teacherId examId db with
     | None => json 404 "Exam not found or unauthorized"
     | Some _ =>
         if decide (length (submitters examId db) = 0)
         then json 400 "No submissions found for this exam"
         else json 200 "Solutions sent to students for peer evaluation"
     end, db).
Proof.
  intros Hsh Hlen. unfold send_solutions.
  fold (exam_of_teacher teacherId examId db).
  destruct (exam_of_teacher teacherId examId db) as [exam|]; [|done].
  unfold submitters in *.
  destruct (find _ (Submissions db)) as [|sub [|sub' subs]];
    simpl in *; [done| |lia].
  unfold assign_for. simpl.
  rewrite (proj1 (Permutation_nil_r (shuffle 0 [])) (Hsh 0 [])).
  rewrite slice0_nil. simpl. by rewrite set_Evaluations_same.
Qed.

(** ** Negative [k] *)

Lemma assign_evaluatees_Done examId numQ u assigned evs :
  (0 ≤ numQ < 2 ^ 32)%Z →
  Forall is_Some assigned →
  ∃ evs', assign_evaluatees examId numQ (Some u) assigned evs = Done evs'.
Proof.
  intros Hrange Hall. revert evs.
  induction Hall as [|ee rest [v ->] _ IH]; intros evs; simpl; [eauto|].
  destruct (findOne _ evs); [apply IH|].
  unfold new_Array_fill.
  destruct (Z.leb_spec 0 numQ), (Z.ltb_spec numQ (2 ^ 32)); try lia.
  simpl. apply IH.
Qed.

Lemma assign_loop_Done shuffle examId numQ k students indices evs :
  is_shuffle shuffle →
  (0 ≤ numQ < 2 ^ 32)%Z →
  Forall is_Some students →
  Forall (λ i, i < length students) indices →
  ∃ evs',
    assign_loop shuffle examId numQ k students indices evs = Done evs'.
Proof.
  intros Hsh Hrange Hstudents Hidx. revert evs.
  induction Hidx as [|i indices Hi _ IH]; intros evs; simpl; [eauto|].
  unfold assign_for.
  destruct (lookup_lt_is_Some_2 students i Hi) as [o Ho].
  pose proof (Forall_lookup_1 _ _ _ _ Hstudents Ho) as [u ->].
  rewrite Ho. simpl.
  edestruct (assign_evaluatees_Done examId numQ u) as [evs' ->];
    [exact Hrange| |apply IH].
  apply Forall_forall. intros x Hx%slice0_subset.
  rewrite (Hsh i _), filter_index_delete in Hx.
  apply list_elem_of_delete_inv in Hx.
  by apply (proj1 (Forall_forall _ _) Hstudents).
Qed.

(** C4, as the code has it. The handler never looks at the sign of [k]:
    for an owned exam with at least one submission, whose submitters all
    exist and whose [numQuestions] is a valid array length, the answer is
    the 200 success for every [k], negative ones included. *)
Theorem send_solutions_k_unchecked shuffle teacherId examId db exam :
  is_shuffle shuffle →
  exam_of_teacher teacherId examId db = Some exam →
  submitters examId db ≠ [] →
  Forall is_Some (students_of examId db) →
  (0 ≤ numQuestions exam < 2 ^ 32)%Z →
  fst (send_solutions shuffle teacherId examId db)
  = json 200 "Solutions sent to students for peer evaluation".
Proof.
  intros Hsh Hexam Hsubs Hstudents Hrange.
  unfold send_solutions. fold (exam_of_teacher teacherId examId db).
  rewrite Hexam. case_decide as Hzero.
  { exfalso. apply Hsubs. unfold submitters.
    by rewrite (nil_length_inv _ Hzero). }
  fold (students_of examId db).
  edestruct (assign_loop_Done shuffle examId (numQuestions exam)
               (exam_k exam) (students_of examId db)
               (seq 0 (length (students_of examId db))) (Evaluations db))
    as [evs' ->]; [done..| |done].
  apply Forall_forall. intros i Hi%elem_of_seq. lia.
Qed.

(** ** Totals over repeated runs *)

Lemma is_shuffle_keep : is_shuffle keep.
Proof. intros i l. done. Qed.

Lemma is_shuffle_flip : is_shuffle flip.
Proof. intros i l. apply reverse_Permutation. Qed.

Lemma NoDup_evaluatees_of examId e (l : list Evaluation) :
  NoDup (pair_of <$> l) → NoDup (evaluatees_of examId e l).
Proof.
  unfold evaluatees_of. induction l as [|r l IH]; [constructor|].
  rewrite fmap_cons, NoDup_cons. intros [Hr Hl].
  destruct (decide (ev_exam r = examId ∧ evaluator r = e)) as [[He Hv]|Hno].
  - rewrite filter_cons_True by done. rewrite fmap_cons.
    constructor; [|by apply IH].
    intros (r' & Heq & [[He' Hv'] Hin]%list_elem_of_filter)%list_elem_of_fmap.
    apply Hr. apply list_elem_of_fmap. exists r'. split; [|done].
    unfold pair_of. congruence.
  - rewrite filter_cons_False by done. by apply IH.
Qed.

Lemma sum_list_with_bound {A} (f : A → nat) (l : list A) (B : nat) :
  Forall (λ x, f x ≤ B) l → sum_list_with f l ≤ length l * B.
Proof. induction 1 as [|x l Hx _ IH]; simpl; lia. Qed.

(** C5, as the code has it. Starting with no evaluatee recorded for an
    evaluator, after [n] runs over a set of [S] submitters with [k ≥ 0]
    the evaluator's total is at most [min(n * k, S - 1)]: each run may add
    up to [k] further evaluatees, and only the exact-pair guard and the
    number of other submitters bound the total. *)
Theorem send_solutions_total_bound shuffles teacherId examId db exam e :
  Forall is_shuffle shuffles →
  one_submission_each examId db →
  exam_of_teacher teacherId examId db = Some exam →
  (0 ≤ exam_k exam)%Z →
  evaluatees_of examId e (Evaluations db) = [] →
  length (evaluatees_of examId e
            (Evaluations (send_solutions_n shuffles teacherId examId db)))
  ≤ Nat.min (length shuffles * Z.to_nat (exam_k exam))
            (length (submitters examId db) - 1).
Proof.
  intros Hsh Hnd Hexam Hk Hnone.
  destruct (send_solutions_n_spec shuffles teacherId examId db)
    as (created & -> & [Hfresh _] & Hall & Hcount).
  simpl. rewrite evaluatees_of_app, Hnone. simpl.
  apply Nat.min_glb.
  - etrans; [exact (Hcount e exam Hexam)|].
    apply sum_list_with_bound.
    eapply Forall_impl; [exact Hsh|]. intros shuffle Hshuffle. simpl.
    etrans; [by apply run_cap|]. lia.
  - assert (Hin : ∀ v, v ∈ evaluatees_of examId e created →
              e ∈ submitters examId db
              ∧ v ∈ filter (λ x, x ≠ e) (submitters examId db)).
    { intros v (r & -> & [[_ <-] Hr]%list_elem_of_filter)%list_elem_of_fmap.
      rewrite Forall_forall in Hall.
      destruct (Hall r Hr) as (shuffle & exam' & i & Hs & _ & Hmade).
      rewrite Forall_forall in Hsh.
      apply (made_at_submitters shuffle (Hsh _ Hs) _ _ _ _ _ _ Hnd) in Hmade
        as (Hne & Her & Hee & _).
      split; [done|]. apply list_elem_of_filter. split; [congruence|done]. }
    destruct (evaluatees_of examId e created) as [|v vs] eqn:Hvs;
      [simpl; lia|].
    rewrite <- Hvs in *.
    assert (He : e ∈ submitters examId db).
    { apply (Hin v). rewrite Hvs. by apply elem_of_cons; left. }
    pose proof (length_filter_lt (λ x, x ≠ e) _ e He) as Hlt.
    assert (Hle : length (evaluatees_of examId e created)
                  ≤ length (filter (λ x, x ≠ e) (submitters examId db))).
    { apply submseteq_length, NoDup_submseteq.
      - by apply NoDup_evaluatees_of.
      - intros v' Hv'. by apply Hin. }
    assert (¬ e ≠ e) as Hee by (intros Hc; by apply Hc).
    specialize (Hlt Hee). lia.
Qed.

(** ** DELETE /exam/:examId *)

(** C8. After a successful exam deletion, the evaluation records and the
    submission records that remain are exactly those of the other exams:
    every record referencing the deleted exam is gone. *)
Theorem delete_exam_cascades userId examId db :
  res_status (fst (delete_exam userId examId db)) = 200 →
  (∀ r, r ∈ Evaluations (snd (delete_exam userId examId db))
        ↔ r ∈ Evaluations db ∧ ev_exam r ≠ examId)
  ∧ (∀ s, s ∈ Submissions (snd (delete_exam userId examId db))
          ↔ s ∈ Submissions db ∧ sub_exam s ≠ examId)
  ∧ Exams (snd (delete_exam userId examId db))
    = deleteOne (λ e, exam_id e = examId) (Exams db).
Proof.
  unfold delete_exam. destruct (findOne _ (Exams db)); simpl; [|lia].
  intros _. unfold deleteMany. split_and!; [| |done].
  - intros r. rewrite list_elem_of_filter. tauto.
  - intros sub. rewrite list_elem_of_filter. tauto.
Qed.

(** ** PUT /exam/:examId *)

Lemma falsy_iff (v : JsValue) :
  falsy v ↔ v ∈ [JsUndefined; JsNull; JsBool false; JsNumber 0;
                 JsString EmptyString].
Proof.
  unfold falsy. rewrite !elem_of_cons, elem_of_nil. split.
  - destruct v as [| |[]|z|s]; simpl; try done; auto.
    + intros ->%negb_false_iff%Z.eqb_eq. auto 10.
    + intros ->%negb_false_iff%String.eqb_eq. auto 10.
  - intros [->|[->|[->|[->|[->|[]]]]]]; done.
Qed.

Lemma kept_where_falsy_refl body e : kept_where_falsy body e e.
Proof. unfold kept_where_falsy. auto 10. Qed.

Section EditProperties.

Variable castToString : JsValue → option string.
Variable castToDate : JsValue → option Date.
Variable castToNumber : JsValue → option Z.
Variable StringToNumber : string → option Z.

Lemma update_fields_kept body exam exam' :
  update_fields castToString castToDate castToNumber StringToNumber
                body exam = Some exam' →
  kept_where_falsy body exam exam'.
Proof.
  unfold update_fields, kept_where_falsy, falsy. intros Hupd.
  destruct (truthy (body_title body)),
           (truthy (body_startTime body)),
           (truthy (body_endTime body)),
           (truthy (body_numQuestions body)),
           (truthy (body_k body));
    simplify_option_eq; split_and!; try done; intros [=].
Qed.

(** C9. Whatever the request, the edit route leaves in every exam each
    field whose body value is falsy (absent, [null], [false], [0] or the
    empty string) as it was: a [k] of [0], a [numQuestions] of [0] (with
    the questions) or an empty title do not update the exam, and fields
    not supplied are unchanged. The other collections are untouched. *)
Theorem edit_exam_keeps_falsy_fields userId examId body db :
  Forall2 (kept_where_falsy body) (Exams db)
    (Exams (snd (edit_exam castToString castToDate castToNumber
                           StringToNumber userId examId body db)))
  ∧ set_Exams (Exams db)
      (snd (edit_exam castToString castToDate castToNumber
                      StringToNumber userId examId body db)) = db
  ∧ falsy (JsNumber 0) ∧ falsy (JsString EmptyString) ∧ falsy JsUndefined.
Proof.
  assert (Hrefl : Forall2 (kept_where_falsy body) (Exams db) (Exams db)).
  { apply Forall_Forall2_diag, Forall_forall. intros e _.
    apply kept_where_falsy_refl. }
  split_and!; [| |done..]; unfold edit_exam;
    destruct (list_find _ (Exams db)) as [[i exam]|] eqn:Hfind;
    try destruct (update_fields _ _ _ _ body exam) as [exam'|] eqn:Hupd;
    simpl; try done; try (by destruct db).
  apply list_find_Some in Hfind as (Hi & _ & _).
  rewrite <- (list_insert_id _ _ _ Hi) at 1.
  apply Forall2_insert; [done|]. by eapply update_fields_kept.
Qed.

End EditProperties.

(** ** assignTeacherToCourse *)

Lemma existsb_elem_of (c : N) (l : list N) :
  existsb (λ id, N.eqb id c) l = true ↔ c ∈ l.
Proof.
  induction l as [|x l IH]; simpl.
  - rewrite elem_of_nil. split; [done|tauto].
  - rewrite orb_true_iff, IH, elem_of_cons, N.eqb_eq. split; intros [|]; auto.
Qed.

(** C10. [assignTeacherToCourse] leaves the store as it is when the course
    is already in the teacher's [enrolledCourses] (nothing is appended),
    and running it a second time changes neither the store nor the
    answer of the first run. *)
Theorem assignTeacherToCourse_idempotent email courseCode db :
  (already_assigned email courseCode db →
   snd (assignTeacherToCourse email courseCode db) = db)
  ∧ assignTeacherToCourse email courseCode
      (snd (assignTeacherToCourse email courseCode db))
    = assignTeacherToCourse email courseCode db.
Proof.
  split.
  - intros (i & teacher & course & Hteacher & Hcourse & Hin).
    unfold assignTeacherToCourse. rewrite Hteacher, Hcourse.
    apply existsb_elem_of in Hin. by rewrite Hin.
  - unfold assignTeacherToCourse at 2 3.
    destruct (list_find _ (Users db)) as [[i teacher]|] eqn:Hteacher.
    2: { simpl. unfold assignTeacherToCourse. by rewrite Hteacher. }
    destruct (findOne _ (Courses db)) as [course|] eqn:Hcourse.
    2: { simpl. unfold assignTeacherToCourse. by rewrite Hteacher, Hcourse. }
    destruct (existsb _ (enrolledCourses teacher)) eqn:Hassigned; simpl.
    { unfold assignTeacherToCourse.
      by rewrite Hteacher, Hcourse, Hassigned. }
    unfold assignTeacherToCourse. simpl.
    set (teacher' := mkUser _ _ _ _ _).
    assert (Hfind' : list_find
              (λ u, user_email u = email ∧ user_role u = "teacher"%string)
              (<[i:=teacher']> (Users db)) = Some (i, teacher')).
    { apply list_find_Some in Hteacher as (Hi & HP & Hleast).
      apply list_find_insert_Some. right; left.
      destruct HP as [Hemail Hrole].
      split_and!; [done|done|by eapply lookup_lt_Some|done|done|done]. }
    rewrite Hfind', Hcourse. simpl.
    rewrite (proj2 (existsb_elem_of _ _)).
    2: { apply elem_of_app. right. by apply list_elem_of_singleton. }
    simpl. done.
Qed.

(** * Concrete runs *)

Lemma one_submission_each_db_of k : one_submission_each 100 (db_of k).
Proof.
  unfold one_submission_each. change (NoDup [1; 2; 3]%N).
  apply (bool_decide_unpack _). reflexivity.
Qed.

Lemma exam_of_teacher_db_of k :
  exam_of_teacher 9 100 (db_of k) = Some (exam_of k).
Proof. reflexivity. Qed.

(** Three submitters and [k = 2]: each is assigned the two others. *)
Example send_solutions_k2 :
  send_solutions keep 9 100 (db_of 2) =
  (json 200 "Solutions sent to students for peer evaluation",
   set_Evaluations
     [mkEvaluation 100 1 2 [0; 0]%Z "" pending;
      mkEvaluation 100 1 3 [0; 0]%Z "" pending;
      mkEvaluation 100 2 1 [0; 0]%Z "" pending;
      mkEvaluation 100 2 3 [0; 0]%Z "" pending;
      mkEvaluation 100 3 1 [0; 0]%Z "" pending;
      mkEvaluation 100 3 2 [0; 0]%Z "" pending] (db_of 2)).
Proof. vm_compute. reflexivity. Qed.

(** Three submitters and [k = -1]: [slice(0, -1)] keeps one candidate per
    evaluator and the answer is the 200 success. *)
Example send_solutions_k_minus1 :
  send_solutions keep 9 100 (db_of (-1)) =
  (json 200 "Solutions sent to students for peer evaluation",
   set_Evaluations
     [mkEvaluation 100 1 2 [0; 0]%Z "" pending;
      mkEvaluation 100 2 1 [0; 0]%Z "" pending;
      mkEvaluation 100 3 1 [0; 0]%Z "" pending] (db_of (-1))).
Proof. vm_compute. reflexivity. Qed.

(** C4 as stated fails: an exam with [k = -1] is not rejected, and
    records are created. *)
Lemma send_solutions_negative_k_not_rejected :
  ¬ (∀ shuffle teacherId examId db exam,
       exam_of_teacher teacherId examId db = Some exam →
       (exam_k exam < 0)%Z →
       400 ≤ res_status (fst (send_solutions shuffle teacherId examId db))
       ∧ snd (send_solutions shuffle teacherId examId db) = db).
Proof.
  intros Hclaim.
  destruct (Hclaim keep 9%N 100%N (db_of (-1)) (exam_of (-1))
              (exam_of_teacher_db_of _)) as [Hstatus _]; [done|].
  rewrite send_solutions_k_minus1 in Hstatus. simpl in Hstatus. lia.
Qed.

(** Two runs with [k = 1] whose sorts differ: the first submitter ends up
    with both other submitters. *)
Example send_solutions_twice_k1 :
  evaluatees_of 100 1
    (Evaluations (send_solutions_n [keep; flip] 9 100 (db_of 1)))
  = [2; 3]%N.
Proof. vm_compute. reflexivity. Qed.

(** C5 as stated fails: after two runs with [k = 1] an evaluator holds two
    evaluatees. *)
Lemma send_solutions_total_exceeds_k :
  ¬ (∀ shuffles teacherId examId db exam e,
       Forall is_shuffle shuffles →
       one_submission_each examId db →
       exam_of_teacher teacherId examId db = Some exam →
       (0 ≤ exam_k exam)%Z →
       evaluatees_of examId e (Evaluations db) = [] →
       length (evaluatees_of examId e
                 (Evaluations
                    (send_solutions_n shuffles teacherId examId db)))
       ≤ Z.to_nat (exam_k exam)).
Proof.
  intros Hclaim.
  specialize (Hclaim [keep; flip] 9%N 100%N (db_of 1) (exam_of 1) 1%N).
  rewrite send_solutions_twice_k1 in Hclaim. simpl in Hclaim.
  assert (2 ≤ 1) as Habs; [|lia].
  apply Hclaim; [|apply one_submission_each_db_of|done|done|done].
  repeat constructor; [apply is_shuffle_keep|apply is_shuffle_flip].
Qed.

(** Without the set hypothesis of C1 and C2 the index filter does not
    exclude the evaluator: a student with two submissions is paired with
    itself. *)
Example duplicate_submission_self_pair :
  Evaluations
    (send_solutions_db keep 9 100
       (mkDB [alice; dave] [] [exam_of 1]
             [mkSubmission 100 1; mkSubmission 100 1] []))
  = [mkEvaluation 100 1 1 [0; 0]%Z "" pending].
Proof. vm_compute. reflexivity. Qed.

(** An edit that supplies [k = 0] and an empty title changes neither. *)
Example edit_exam_k_zero :
  Exams (snd (edit_exam no_cast no_cast no_cast no_number 9 100
                (mkEditBody (JsString "") JsUndefined JsUndefined
                            JsUndefined (JsNumber 0))
                (db_of 2)))
  = [exam_of 2].
Proof. vm_compute. reflexivity. Qed.

(** An edit that supplies [numQuestions = 3] and [k = 1] resets the
    questions. *)
Example edit_exam_three_questions :
  Exams (snd (edit_exam no_cast no_cast no_cast no_number 9 100
                (mkEditBody JsUndefined JsUndefined JsUndefined
                            (JsNumber 3) (JsNumber 1))
                (db_of 2)))
  = [mkExam 100 9 50 60 "Quiz" (NewDate "t0") (NewDate "t1") 3
       [mkQuestion "Question 1" 10; mkQuestion "Question 2" 10;
        mkQuestion "Question 3" 10] 1].
Proof. vm_compute. reflexivity. Qed.

(** * Instances of the conditional theorems *)

Lemma send_solutions_never_self_witness :
  ∃ created,
    Evaluations (send_solutions_db keep 9 100 (db_of 2))
    = Evaluations (db_of 2) ++ created
    ∧ Forall (λ r, evaluator r ≠ evaluatee r) created.
Proof.
  apply (send_solutions_never_self keep 9%N 100%N (db_of 2)).
  - apply is_shuffle_keep.
  - apply one_submission_each_db_of.
Defined.

Lemma send_solutions_at_most_k_witness :
  ∃ created,
    Evaluations (send_solutions_db keep 9 100 (db_of 2))
    = Evaluations (db_of 2) ++ created
    ∧ length (evaluatees_of 100 1 created) ≤ 2.
Proof.
  apply (send_solutions_at_most_k keep 9%N 100%N (db_of 2) (exam_of 2) 1%N).
  - apply is_shuffle_keep.
  - apply one_submission_each_db_of.
  - reflexivity.
  - simpl. lia.
Defined.

Lemma send_solutions_k_unchecked_witness :
  (exam_k (exam_of (-1)) < 0)%Z
  ∧ fst (send_solutions keep 9 100 (db_of (-1)))
    = json 200 "Solutions sent to students for peer evaluation".
Proof.
  split; [simpl; lia|].
  apply (send_solutions_k_unchecked keep 9%N 100%N (db_of (-1))
           (exam_of (-1))).
  - apply is_shuffle_keep.
  - reflexivity.
  - discriminate.
  - vm_compute. repeat constructor; eexists; reflexivity.
  - simpl. lia.
Defined.

Lemma send_solutions_total_bound_witness :
  length (evaluatees_of 100 1
            (Evaluations (send_solutions_n [keep; flip] 9 100 (db_of 1))))
  ≤ 2.
Proof.
  apply (send_solutions_total_bound [keep; flip] 9%N 100%N (db_of 1)
           (exam_of 1) 1%N).
  - repeat constructor; [apply is_shuffle_keep|apply is_shuffle_flip].
  - apply one_submission_each_db_of.
  - reflexivity.
  - simpl. lia.
  - reflexivity.
Defined.

Lemma send_solutions_few_submitters_witness :
  send_solutions keep 9 100 db_single
  = (json 200 "Solutions sent to students for peer evaluation", db_single).
Proof.
  apply (send_solutions_few_submitters keep 9%N 100%N db_single).
  - apply is_shuffle_keep.
  - simpl. lia.
Defined.

Lemma delete_exam_cascades_witness :
  (∀ r, r ∈ Evaluations (snd (delete_exam 9 100 (db_of 2)))
        ↔ r ∈ Evaluations (db_of 2) ∧ ev_exam r ≠ 100%N)
  ∧ (∀ s, s ∈ Submissions (snd (delete_exam 9 100 (db_of 2)))
          ↔ s ∈ Submissions (db_of 2) ∧ sub_exam s ≠ 100%N)
  ∧ Exams (snd (delete_exam 9 100 (db_of 2)))
    = deleteOne (λ e, exam_id e = 100%N) (Exams (db_of 2)).
Proof.
  apply (delete_exam_cascades 9%N 100%N (db_of 2)). reflexivity.
Defined.

Lemma assignTeacherToCourse_idempotent_witness :
  snd (assignTeacherToCourse "dave@x" "CS1" db_assigned) = db_assigned.
Proof.
  apply (proj1 (assignTeacherToCourse_idempotent "dave@x" "CS1" db_assigned)).
  exists 1, (mkUser 9 "Dave" "dave@x" "teacher" [50]%N), (mkCourse 50 "CS1").
  split_and!; [reflexivity|reflexivity|].
  apply list_elem_of_singleton. reflexivity.
Defined.

(** * Further properties of the assignment *)

(** X1. Any number of runs of send-solutions only appends evaluation
    records: users, courses, exams and submissions are untouched and the
    records already stored stay, unchanged and in place, at the front. *)
Theorem send_solutions_only_appends shuffles teacherId examId db :
  Users (send_solutions_n shuffles teacherId examId db) = Users db
  ∧ Courses (send_solutions_n shuffles teacherId examId db) = Courses db
  ∧ Exams (send_solutions_n shuffles teacherId examId db) = Exams db
  ∧ Submissions (send_solutions_n shuffles teacherId examId db)
    = Submissions db
  ∧ Evaluations db
    `prefix_of` Evaluations (send_solutions_n shuffles teacherId examId db).
Proof.
  destruct (send_solutions_n_spec shuffles teacherId examId db)
    as (created & -> & _).
  simpl. split_and!; try done. by exists created.
Qed.

Lemma made_at_members shuffle examId db numQ k i r :
  is_shuffle shuffle →
  made_at shuffle examId numQ k (students_of examId db) i r →
  ev_exam r = examId
  ∧ evaluator r ∈ submitters examId db
  ∧ evaluatee r ∈ submitters examId db.
Proof.
  intros Hsh (u & v & Hu & Hv & -> & _). simpl.
  apply (assigned_at_elem shuffle Hsh) in Hv as (j & _ & Hv).
  split_and!; [done| |]; apply list_elem_of_lookup;
    eexists; by apply students_of_lookup.
Qed.

(** X2. Every record a run creates is for the requested exam and joins
    two students who both submitted for it. *)
Theorem send_solutions_pairs_submitters shuffle teacherId examId db :
  is_shuffle shuffle →
  ∃ created,
    Evaluations (send_solutions_db shuffle teacherId examId db)
    = Evaluations db ++ created
    ∧ Forall (λ r, ev_exam r = examId
                 ∧ evaluator r ∈ submitters examId db
                 ∧ evaluatee r ∈ submitters examId db) created.
Proof.
  intros Hsh.
  destruct (send_solutions_spec shuffle teacherId examId db)
    as (created & Hdb & _ & Hall & _).
  exists created. split; [by rewrite Hdb|].
  eapply Forall_impl; [exact Hall|]. intros r (exam & i & _ & Hr).
  by eapply made_at_members.
Qed.

Lemma send_solutions_pairs_submitters_witness :
  ∃ created,
    Evaluations (send_solutions_db flip 9 100 (db_of 1))
    = Evaluations (db_of 1) ++ created
    ∧ Forall (λ r, ev_exam r = 100%N
                 ∧ evaluator r ∈ submitters 100 (db_of 1)
                 ∧ evaluatee r ∈ submitters 100 (db_of 1)) created.
Proof.
  apply (send_solutions_pairs_submitters flip 9%N 100%N (db_of 1)).
  apply is_shuffle_flip.
Defined.

(** ** The first run *)

Lemma filter_all {A} (P : A → Prop) `{∀ x, Decision (P x)} (l : list A) :
  Forall P l → filter P l = l.
Proof.
  induction 1 as [|x l Hx _ IH]; [done|].
  by rewrite filter_cons_True, IH.
Qed.

Lemma seeds_length examId numQ u assigned :
  Forall is_Some assigned →
  length (seeds examId numQ u assigned) = length assigned.
Proof.
  unfold seeds. induction 1 as [|o l [v ->] _ IH]; [done|].
  simpl. f_equal. exact IH.
Qed.

Lemma seeds_Forall examId numQ u assigned :
  Forall (λ r, ev_exam r = examId ∧ evaluator r = user_id u)
         (seeds examId numQ u assigned).
Proof.
  unfold seeds. induction assigned as [|[v|] l IH]; simpl; [done| |done].
  by constructor.
Qed.

Lemma assign_evaluatees_all examId numQ u assigned evs :
  (0 ≤ numQ < 2 ^ 32)%Z →
  Forall is_Some assigned →
  NoDup (oid <$> assigned) →
  Forall (λ r, ev_exam r = examId → evaluator r = user_id u →
               Some (evaluatee r) ∉ oid <$> assigned) evs →
  assign_evaluatees examId numQ (Some u) assigned evs
  = Done (evs ++ seeds examId numQ u assigned).
Proof.
  intros Hrange Hall. revert evs.
  induction Hall as [|o rest [v ->] _ IH]; intros evs Hnd Hevs.
  { simpl. by rewrite app_nil_r. }
  rewrite fmap_cons in Hnd, Hevs. apply NoDup_cons in Hnd as [Hv Hnd].
  assert (Hfind : findOne (same_pair examId (user_id u) (user_id v)) evs
                  = None).
  { apply findOne_None. eapply Forall_impl; [exact Hevs|].
    intros r Hr (He & Hu & Hee). apply (Hr He Hu).
    rewrite Hee. by apply elem_of_cons; left. }
  assert (Hfill : new_Array_fill numQ 0
                  = Some (replicate (Z.to_nat numQ) 0%Z)).
  { unfold new_Array_fill.
    destruct (Z.leb_spec 0 numQ), (Z.ltb_spec numQ (2 ^ 32)); try lia. done. }
  simpl. rewrite Hfind, Hfill. rewrite IH; [|done|].
  - unfold seeds. simpl. by rewrite <- app_assoc.
  - apply Forall_app. split.
    + eapply Forall_impl; [exact Hevs|]. intros r Hr He Hu Hin.
      apply (Hr He Hu). by apply elem_of_cons; right.
    + constructor; [|done]. simpl. intros _ _. exact Hv.
Qed.

Section FirstRun.

Variable shuffle : nat → list (option User) → list (option User).
Variables (examId : ObjectId) (numQ k : Z).
Variable students : list (option User).

Hypothesis shuffle_perm : is_shuffle shuffle.
Hypothesis numQ_range : (0 ≤ numQ < 2 ^ 32)%Z.
Hypothesis students_exist : Forall is_Some students.
Hypothesis students_distinct : NoDup (oid <$> students).

Lemma oid_unique i j u v :
  students !! i = Some (Some u) → students !! j = Some (Some v) →
  user_id u = user_id v → i = j.
Proof.
  intros Hi Hj Heq.
  apply (NoDup_lookup (oid <$> students) i j (Some (user_id u)));
    [done| |]; rewrite list_lookup_fmap.
  - by rewrite Hi.
  - rewrite Hj. simpl. by rewrite Heq.
Qed.

Lemma assigned_at_is_Some i : Forall is_Some (assigned_at shuffle k students i).
Proof.
  apply Forall_forall. intros o Ho%slice0_subset.
  rewrite (shuffle_perm i _) in Ho. unfold others in Ho.
  rewrite filter_index_delete in Ho. apply list_elem_of_delete_inv in Ho.
  by apply (proj1 (Forall_forall _ _) students_exist).
Qed.

Lemma assigned_at_NoDup i : NoDup (oid <$> assigned_at shuffle k students i).
Proof.
  unfold assigned_at, slice0. rewrite fmap_take.
  eapply sublist_NoDup; [|apply sublist_take].
  rewrite (shuffle_perm i _). unfold others.
  rewrite filter_index_delete, list_fmap_delete.
  eapply sublist_NoDup; [exact students_distinct|apply sublist_delete].
Qed.

Lemma assigned_at_length_exact i :
  (0 ≤ k)%Z → i < length students →
  length (assigned_at shuffle k students i)
  = Nat.min (Z.to_nat k) (length students - 1).
Proof.
  intros Hk Hi. unfold assigned_at, slice0.
  assert (Hlen : length (shuffle i (others students i))
                 = length students - 1).
  { rewrite (shuffle_perm i _). unfold others.
    rewrite filter_index_delete. apply length_delete.
    by apply lookup_lt_is_Some. }
  destruct (Z.ltb_spec (Z.min k (Z.of_nat (length (shuffle i (others students i))))) 0);
    [lia|].
  rewrite length_take, Hlen. lia.
Qed.

Lemma assign_loop_all indices evs :
  NoDup indices →
  Forall (λ i, i < length students) indices →
  Forall (λ r, ev_exam r = examId →
               ∀ i u, i ∈ indices → students !! i = Some (Some u) →
                      evaluator r ≠ user_id u) evs →
  assign_loop shuffle examId numQ k students indices evs
  = Done (evs ++ (indices ≫= chunk shuffle examId numQ k students)).
Proof.
  intros Hnd Hidx. revert evs Hnd.
  induction Hidx as [|i rest Hi _ IH]; intros evs Hnd Hevs.
  { simpl. by rewrite app_nil_r. }
  apply NoDup_cons in Hnd as [Hirest Hnd].
  destruct (lookup_lt_is_Some_2 students i Hi) as [o Ho].
  pose proof (Forall_lookup_1 _ _ _ _ students_exist Ho) as [u ->].
  simpl.
  change (assign_for shuffle examId numQ k students i evs)
    with (assign_evaluatees examId numQ (default None (students !! i))
            (assigned_at shuffle k students i) evs).
  rewrite Ho. simpl.
  rewrite assign_evaluatees_all;
    [|done|apply assigned_at_is_Some|apply assigned_at_NoDup|].
  - rewrite IH; [|done|].
    + unfold chunk at 2. rewrite Ho. by rewrite <- app_assoc.
    + apply Forall_app. split.
      * eapply Forall_impl; [exact Hevs|]. intros r Hr He j v Hj Hv.
        apply (Hr He j v); [by apply elem_of_cons; right|done].
      * eapply Forall_impl; [apply seeds_Forall|].
        intros r [_ Hr] _ j v Hj Hv. rewrite Hr. intros Heq.
        apply Hirest. by rewrite (oid_unique i j u v Ho Hv Heq).
  - eapply Forall_impl; [exact Hevs|]. intros r Hr He Hu.
    exfalso. apply (Hr He i u); [by apply elem_of_cons; left|done..].
Qed.

Lemma evaluatees_of_chunks i0 u0 indices :
  students !! i0 = Some (Some u0) →
  NoDup indices →
  evaluatees_of examId (user_id u0)
    (indices ≫= chunk shuffle examId numQ k students)
  = if decide (i0 ∈ indices)
    then evaluatee <$> chunk shuffle examId numQ k students i0
    else [].
Proof.
  intros Hu0. induction indices as [|i rest IH]; intros Hnd.
  { rewrite decide_False; [done|]. apply not_elem_of_nil. }
  apply NoDup_cons in Hnd as [Hirest Hnd]. specialize (IH Hnd).
  change ((i :: rest) ≫= chunk shuffle examId numQ k students)
    with (chunk shuffle examId numQ k students i
          ++ (rest ≫= chunk shuffle examId numQ k students)).
  rewrite evaluatees_of_app, IH.
  destruct (decide (i = i0)) as [->|Hne].
  - rewrite (decide_False (P := i0 ∈ rest)) by done.
    rewrite decide_True by (by apply elem_of_cons; left).
    rewrite app_nil_r.
    unfold evaluatees_of. f_equal. apply filter_all.
    unfold chunk. rewrite Hu0. apply seeds_Forall.
  - assert (Hnone : evaluatees_of examId (user_id u0)
                      (chunk shuffle examId numQ k students i) = []).
    { unfold evaluatees_of. rewrite filter_none; [done|].
      unfold chunk. destruct (students !! i) as [[u|]|] eqn:Hu; [|done..].
      eapply Forall_impl; [apply seeds_Forall|].
      intros r [_ Hr] [_ Hr']. apply Hne.
      apply (oid_unique i i0 u u0 Hu Hu0). congruence. }
    rewrite Hnone. simpl.
    destruct (decide (i0 ∈ rest)) as [Hin|Hout].
    + rewrite decide_True; [done|]. by apply elem_of_cons; right.
    + rewrite decide_False; [done|]. intros [->|?]%elem_of_cons; done.
Qed.

End FirstRun.

Lemma students_of_oid examId db :
  Forall is_Some (students_of examId db) →
  oid <$> students_of examId db = Some <$> submitters examId db.
Proof.
  unfold students_of, submitters.
  induction (find _ (Submissions db)) as [|sub subs IH]; [done|].
  rewrite !fmap_cons. intros [[u Hu] Hall]%Forall_cons.
  rewrite IH by done. f_equal. rewrite Hu. simpl.
  apply findOne_Some in Hu as [_ ->]. done.
Qed.

(** X3. On a first run (no record of the exam stored yet) over a set of
    [S] submitters who all exist, with [k ≥ 0] and a valid question count,
    every submitter is given exactly [min(k, S - 1)] evaluatees. *)
Theorem send_solutions_first_run_exact shuffle teacherId examId db exam e :
  is_shuffle shuffle →
  one_submission_each examId db →
  Forall is_Some (students_of examId db) →
  exam_of_teacher teacherId examId db = Some exam →
  (0 ≤ exam_k exam)%Z →
  (0 ≤ numQuestions exam < 2 ^ 32)%Z →
  Forall (λ r, ev_exam r ≠ examId) (Evaluations db) →
  e ∈ submitters examId db →
  length (evaluatees_of examId e
            (Evaluations (send_solutions_db shuffle teacherId examId db)))
  = Nat.min (Z.to_nat (exam_k exam)) (length (submitters examId db) - 1).
Proof.
  intros Hsh Hset Hall Hexam Hk Hrange Hnew He.
  assert (Hdistinct : NoDup (oid <$> students_of examId db)).
  { rewrite students_of_oid by done. by apply (NoDup_fmap_2 Some). }
  apply list_elem_of_lookup in He as [i0 Hi0].
  assert (Hlt : i0 < length (students_of examId db)).
  { rewrite students_of_length. by eapply lookup_lt_Some. }
  destruct (lookup_lt_is_Some_2 _ _ Hlt) as [o Ho].
  pose proof (Forall_lookup_1 _ _ _ _ Hall Ho) as [u0 ->].
  pose proof (students_of_lookup _ _ _ _ Ho) as Hid.
  rewrite Hi0 in Hid. injection Hid as ->.
  unfold send_solutions_db, send_solutions.
  fold (exam_of_teacher teacherId examId db). rewrite Hexam.
  fold (find (λ s, sub_exam s = examId) (Submissions db)).
  case_decide as Hzero.
  { exfalso. unfold students_of, find in *.
    rewrite length_fmap in Hlt. lia. }
  fold (students_of examId db).
  rewrite (assign_loop_all shuffle examId (numQuestions exam) (exam_k exam)
             (students_of examId db) Hsh Hrange Hall Hdistinct).
  - simpl. rewrite evaluatees_of_app.
    replace (evaluatees_of examId (user_id u0) (Evaluations db))
      with (@nil N).
    2: { unfold evaluatees_of. rewrite filter_none; [done|].
         eapply Forall_impl; [exact Hnew|]. intros r Hr [He' _]. done. }
    rewrite (evaluatees_of_chunks shuffle examId (numQuestions exam)
               (exam_k exam) (students_of examId db) Hdistinct i0 u0 _ Ho)
      by apply NoDup_seq.
    rewrite decide_True by (apply elem_of_seq; lia).
    simpl. rewrite length_fmap. unfold chunk. rewrite Ho.
    rewrite seeds_length
      by (by apply (assigned_at_is_Some shuffle (exam_k exam) _ Hsh)).
    rewrite (assigned_at_length_exact shuffle (exam_k exam) _ Hsh) by done.
    by rewrite students_of_length.
  - apply NoDup_seq.
  - apply Forall_forall. intros i Hi%elem_of_seq. lia.
  - eapply Forall_impl; [exact Hnew|]. intros r Hr He'. done.
Qed.

Lemma send_solutions_first_run_exact_witness :
  length (evaluatees_of 100 1
            (Evaluations (send_solutions_db flip 9 100 (db_of 1))))
  = 1.
Proof.
  apply (send_solutions_first_run_exact flip 9%N 100%N (db_of 1)
           (exam_of 1) 1%N).
  - apply is_shuffle_flip.
  - apply one_submission_each_db_of.
  - vm_compute. repeat constructor; eexists; reflexivity.
  - reflexivity.
  - simpl. lia.
  - simpl. lia.
  - constructor.
  - apply elem_of_cons. left. reflexivity.
Defined.

(** ** Running again after a complete run *)

Lemma assign_evaluatees_covers examId numQ er assigned evs evs' :
  assign_evaluatees examId numQ er assigned evs = Done evs' →
  (∀ r, r ∈ evs → r ∈ evs')
  ∧ ∀ o, o ∈ assigned →
      ∃ u v r, er = Some u ∧ o = Some v ∧ r ∈ evs'
               ∧ same_pair examId (user_id u) (user_id v) r.
Proof.
  revert evs. induction assigned as [|ee rest IH]; intros evs; simpl.
  { intros [= <-]. split; [done|]. intros o Ho. by apply elem_of_nil in Ho. }
  destruct er as [u|], ee as [v|]; try done.
  destruct (findOne _ evs) as [r|] eqn:Hfind.
  - intros Hrun. destruct (IH _ Hrun) as [Hmono Hcov]. split; [done|].
    intros o [->|Ho]%elem_of_cons; [|by apply Hcov].
    apply findOne_Some in Hfind as [Hr Hpair].
    exists u, v, r. split_and!; [done|done|by apply Hmono|done].
  - destruct (new_Array_fill numQ 0) as [zeros|]; [|done].
    intros Hrun. destruct (IH _ Hrun) as [Hmono Hcov]. split.
    + intros r Hr. apply Hmono, elem_of_app. by left.
    + intros o [->|Ho]%elem_of_cons; [|by apply Hcov].
      eexists u, v, _. split_and!; [done|done| |].
      * apply Hmono, elem_of_app. right. by apply list_elem_of_singleton.
      * by unfold same_pair.
Qed.

Lemma assign_evaluatees_skips examId numQ er assigned big :
  (∀ o, o ∈ assigned →
     ∃ u v r, er = Some u ∧ o = Some v ∧ r ∈ big
              ∧ same_pair examId (user_id u) (user_id v) r) →
  assign_evaluatees examId numQ er assigned big = Done big.
Proof.
  induction assigned as [|ee rest IH]; intros Hcov; [done|].
  destruct (Hcov ee) as (u & v & r & -> & -> & Hr & Hpair);
    [by apply elem_of_cons; left|].
  simpl. destruct (findOne _ big) as [r'|] eqn:Hfind.
  - apply IH. intros o Ho. apply Hcov. by apply elem_of_cons; right.
  - apply findOne_None in Hfind. rewrite Forall_forall in Hfind.
    by destruct (Hfind r Hr).
Qed.

Section Again.

Variables shuffle1 shuffle2 : nat → list (option User) → list (option User).
Variables (examId : ObjectId) (numQ k : Z).
Variable students : list (option User).

Lemma assign_loop_covers indices evs evs' :
  assign_loop shuffle1 examId numQ k students indices evs = Done evs' →
  (∀ r, r ∈ evs → r ∈ evs')
  ∧ ∀ i o, i ∈ indices → o ∈ assigned_at shuffle1 k students i →
      ∃ u v r, default None (students !! i) = Some u ∧ o = Some v
               ∧ r ∈ evs' ∧ same_pair examId (user_id u) (user_id v) r.
Proof.
  revert evs. induction indices as [|i rest IH]; intros evs; simpl.
  { intros [= <-]. split; [done|]. intros i o Hi. by apply elem_of_nil in Hi. }
  destruct (assign_for shuffle1 examId numQ k students i evs)
    as [evs1|] eqn:Hstep; [|done].
  intros Hrun. destruct (IH _ Hrun) as [Hmono Hcov].
  apply assign_evaluatees_covers in Hstep as [Hmono1 Hcov1].
  split; [by auto|].
  intros j o [->|Hj]%elem_of_cons Ho; [|by eapply Hcov].
  destruct (Hcov1 o Ho) as (u & v & r & ? & ? & ? & ?).
  exists u, v, r. split_and!; [done|done|by apply Hmono|done].
Qed.

Lemma assign_loop_skips indices big :
  (∀ i o, i ∈ indices → o ∈ assigned_at shuffle2 k students i →
     ∃ u v r, default None (students !! i) = Some u ∧ o = Some v
              ∧ r ∈ big ∧ same_pair examId (user_id u) (user_id v) r) →
  assign_loop shuffle2 examId numQ k students indices big = Done big.
Proof.
  induction indices as [|i rest IH]; intros Hcov; [done|]. simpl.
  change (assign_for shuffle2 examId numQ k students i big)
    with (assign_evaluatees examId numQ (default None (students !! i))
            (assigned_at shuffle2 k students i) big).
  rewrite assign_evaluatees_skips.
  - apply IH. intros j o Hj. apply Hcov. by apply elem_of_cons; right.
  - intros o Ho. apply (Hcov i o); [by apply elem_of_cons; left|done].
Qed.

Hypothesis shuffle1_perm : is_shuffle shuffle1.
Hypothesis shuffle2_perm : is_shuffle shuffle2.

(** With [k] at least the number of other students, the selection is the
    whole candidate array, whatever the sort did. *)
Lemma assigned_at_everyone i o :
  i < length students → (Z.of_nat (length students) - 1 ≤ k)%Z →
  o ∈ assigned_at shuffle2 k students i →
  o ∈ assigned_at shuffle1 k students i.
Proof.
  intros Hi Hk Ho%slice0_subset.
  rewrite (shuffle2_perm i _), <- (shuffle1_perm i _) in Ho.
  unfold assigned_at, slice0.
  assert (Hlen : length (shuffle1 i (others students i))
                 = length students - 1).
  { rewrite (shuffle1_perm i _). unfold others.
    rewrite filter_index_delete. apply length_delete.
    by apply lookup_lt_is_Some. }
  destruct (Z.ltb_spec
              (Z.min k (Z.of_nat (length (shuffle1 i (others students i)))))
              0); [lia|].
  rewrite take_ge; [done|]. lia.
Qed.

End Again.

(** X4. When [k] is at least the number of other submitters and a run
    has answered 200, every ordered pair of submitters is recorded: a
    further run, whatever its sort does, answers 200 and creates
    nothing. *)
Theorem send_solutions_again_creates_nothing
    shuffle1 shuffle2 teacherId examId db exam :
  is_shuffle shuffle1 → is_shuffle shuffle2 →
  exam_of_teacher teacherId examId db = Some exam →
  (Z.of_nat (length (submitters examId db)) - 1 ≤ exam_k exam)%Z →
  res_status (fst (send_solutions shuffle1 teacherId examId db)) = 200 →
  send_solutions shuffle2 teacherId examId
    (send_solutions_db shuffle1 teacherId examId db)
  = (json 200 "Solutions sent to students for peer evaluation",
     send_solutions_db shuffle1 teacherId examId db).
Proof.
  intros Hsh1 Hsh2 Hexam Hk.
  unfold send_solutions_db. unfold send_solutions at 1 3 4.
  fold (exam_of_teacher teacherId examId db). rewrite Hexam.
  case_decide as Hzero; [simpl; lia|].
  fold (students_of examId db).
  destruct (assign_loop shuffle1 _ _ _ _ _ _) as [evs'|evs'] eqn:Hrun;
    simpl; [intros _|lia].
  unfold send_solutions. simpl.
  fold (exam_of_teacher teacherId examId db). rewrite Hexam.
  rewrite decide_False by done.
  change (populate_student (set_Evaluations evs' db))
    with (populate_student db).
  fold (students_of examId db).
  apply assign_loop_covers in Hrun as [_ Hcov].
  rewrite assign_loop_skips; [done|].
  intros i o Hi Ho. apply (Hcov i o Hi).
  apply elem_of_seq in Hi.
  apply (assigned_at_everyone shuffle1 shuffle2 _ _ Hsh1 Hsh2); [lia| |done].
  by rewrite students_of_length.
Qed.

Lemma send_solutions_again_creates_nothing_witness :
  send_solutions flip 9 100 (send_solutions_db keep 9 100 (db_of 2))
  = (json 200 "Solutions sent to students for peer evaluation",
     send_solutions_db keep 9 100 (db_of 2)).
Proof.
  apply (send_solutions_again_creates_nothing keep flip 9%N 100%N (db_of 2)
           (exam_of 2)).
  - apply is_shuffle_keep.
  - apply is_shuffle_flip.
  - reflexivity.
  - simpl. lia.
  - reflexivity.
Defined.

(** * Further properties of the exam routes *)

Lemma list_find_None_Forall {A} (P : A → Prop) `{∀ x, Decision (P x)}
    (l : list A) :
  Forall (λ x, ¬ P x) l → list_find P l = None.
Proof. apply list_find_None. Qed.

Section Ownership.

Variable shuffle : nat → list (option User) → list (option User).
Variable castToString : JsValue → option string.
Variable castToDate : JsValue → option Date.
Variable castToNumber : JsValue → option Z.
Variable StringToNumber : string → option Z.


End Ownership.


Lemma delete_found_filter {A} (f : A → N) (a : N) (l : list A) i x :
  NoDup (f <$> l) →
  list_find (λ y, f y = a) l = Some (i, x) →
  delete i l = filter (λ y, f y ≠ a) l.
Proof.
  revert i. induction l as [|y l IH]; intros i Hnd Hfind; [done|].
  rewrite fmap_cons in Hnd. apply NoDup_cons in Hnd as [Hy Hnd].
  apply list_find_Some in Hfind as (Hi & Hx & Hleast).
  destruct i as [|i]; simpl in Hi.
  - injection Hi as ->. simpl. rewrite filter_cons_False by (by intros ?).
    symmetry. apply filter_all, Forall_forall. intros z Hz Hza.
    apply Hy. rewrite Hx, <- Hza. by apply list_elem_of_fmap_2.
  - assert (f y ≠ a) as Hya.
    { apply (Hleast 0 y); [done|lia]. }
    simpl. rewrite filter_cons_True by done. f_equal.
    apply IH; [done|]. apply list_find_Some. split_and!; [done..|].
    intros j z Hj Hlt. apply (Hleast (S j) z); [done|lia].
Qed.

(** X6. With exam ids unique, a successful deletion leaves exactly the
    exams of other ids, in their order, and asking again is answered 404
    without any further change. *)
Theorem delete_exam_removes_exam userId examId db :
  NoDup (exam_id <$> Exams db) →
  res_status (fst (delete_exam userId examId db)) = 200 →
  Exams (snd (delete_exam userId examId db))
  = filter (λ e, exam_id e ≠ examId) (Exams db)
  ∧ delete_exam userId examId (snd (delete_exam userId examId db))
    = (json 404 "Exam not found or unauthorized",
       snd (delete_exam userId examId db)).
Proof.
  intros Hnd.
  assert (Hrun : ∀ exam, findOne (λ e, exam_id e = examId ∧ createdBy e = userId)
                           (Exams db) = Some exam →
            delete_exam userId examId db
            = (json 200 "Exam and related data deleted successfully",
               mkDB (Users db) (Courses db)
                 (deleteOne (λ e, exam_id e = examId) (Exams db))
                 (deleteMany (λ s, sub_exam s = examId) (Submissions db))
                 (deleteMany (λ r, ev_exam r = examId) (Evaluations db)))).
  { intros exam Hexam. unfold delete_exam. by rewrite Hexam. }
  destruct (findOne (λ e, exam_id e = examId ∧ createdBy e = userId)
                    (Exams db)) as [exam|] eqn:Hfind.
  2: { unfold delete_exam. rewrite Hfind. simpl. lia. }
  rewrite (Hrun exam eq_refl). simpl. intros _.
  apply findOne_Some in Hfind as [Hin [Hid _]].
  assert (Hgone : deleteOne (λ e, exam_id e = examId) (Exams db)
                  = filter (λ e, exam_id e ≠ examId) (Exams db)).
  { unfold deleteOne.
    destruct (list_find _ (Exams db)) as [[i x]|] eqn:Hone.
    - by apply (delete_found_filter exam_id examId _ i x).
    - apply list_find_None in Hone. rewrite Forall_forall in Hone.
      by destruct (Hone exam Hin). }
  split; [exact Hgone|]. unfold delete_exam, findOne. simpl.
  rewrite list_find_None_Forall; [done|].
  rewrite Hgone. apply Forall_forall.
  intros e [He _]%list_elem_of_filter [Hid' _]. done.
Qed.

Lemma delete_exam_removes_exam_witness :
  Exams (snd (delete_exam 9 100 (db_of 2)))
  = filter (λ e, exam_id e ≠ 100%N) (Exams (db_of 2))
  ∧ delete_exam 9 100 (snd (delete_exam 9 100 (db_of 2)))
    = (json 404 "Exam not found or unauthorized",
       snd (delete_exam 9 100 (db_of 2))).
Proof.
  apply (delete_exam_removes_exam 9%N 100%N (db_of 2)).
  - repeat constructor. intros Hin. by apply elem_of_nil in Hin.
  - reflexivity.
Defined.

Lemma placeholder_questions_length n :
  length (placeholder_questions (Some n)) = Z.to_nat n.
Proof. simpl. by rewrite length_fmap, length_seqZ. Qed.

Lemma placeholder_questions_marks bound :
  Forall (λ q, maxMarks q = 10%Z) (placeholder_questions bound).
Proof.
  destruct bound as [n|]; simpl; [|done].
  apply Forall_fmap, Forall_forall. done.
Qed.

Lemma placeholder_questions_in_step userId course batch t s e n k i :
  questions_in_step
    (mkExam i userId course batch t s e n (placeholder_questions (Some n)) k).
Proof.
  split; simpl.
  - by rewrite length_fmap, length_seqZ.
  - apply (placeholder_questions_marks (Some n)).
Qed.

Section EditFurther.

Variable castToString : JsValue → option string.
Variable castToDate : JsValue → option Date.
Variable castToNumber : JsValue → option Z.
Variable StringToNumber : string → option Z.

Lemma update_fields_again body exam exam' :
  update_fields castToString castToDate castToNumber StringToNumber
                body exam = Some exam' →
  update_fields castToString castToDate castToNumber StringToNumber
                body exam' = Some exam'.
Proof.
  unfold update_fields. intros Hupd.
  destruct (truthy (body_title body)),
           (truthy (body_startTime body)),
           (truthy (body_endTime body)),
           (truthy (body_numQuestions body)),
           (truthy (body_k body));
    simpl in *; simplify_option_eq; try done;
    repeat match goal with
           | H : bool_decide _ = true |- _ => apply bool_decide_eq_true in H
           | H : bool_decide _ = false |- _ => apply bool_decide_eq_false in H
           | H : ¬ _ ≠ _ |- _ => apply dec_stable in H
           end.
  all: try (destruct (body_numQuestions body); simplify_option_eq; done).
  all: try (exfalso; congruence).
Qed.

Lemma update_fields_identity body exam exam' :
  update_fields castToString castToDate castToNumber StringToNumber
                body exam = Some exam' →
  exam_id exam' = exam_id exam ∧ createdBy exam' = createdBy exam.
Proof.
  intros (? & ? & _)%update_fields_kept. done.
Qed.

(** X7. The edit route is idempotent: sending the same body a second
    time yields the same answer and the same store as the first time. *)
Theorem edit_exam_idempotent userId examId body db :
  edit_exam castToString castToDate castToNumber StringToNumber
            userId examId body
    (snd (edit_exam castToString castToDate castToNumber StringToNumber
                    userId examId body db))
  = edit_exam castToString castToDate castToNumber StringToNumber
              userId examId body db.
Proof.
  unfold edit_exam at 2 3.
  destruct (list_find _ (Exams db)) as [[i exam]|] eqn:Hfind.
  2: { simpl. unfold edit_exam. by rewrite Hfind. }
  destruct (update_fields _ _ _ _ body exam) as [exam'|] eqn:Hupd.
  2: { simpl. unfold edit_exam. by rewrite Hfind, Hupd. }
  simpl. unfold edit_exam. simpl.
  assert (Hfind' : list_find
            (λ e, exam_id e = examId ∧ createdBy e = userId)
            (<[i:=exam']> (Exams db)) = Some (i, exam')).
  { apply list_find_Some in Hfind as (Hi & [Hid Hby] & Hleast).
    destruct (update_fields_identity _ _ _ Hupd) as [Hid' Hby'].
    apply list_find_insert_Some. right; left.
    split_and!; [done|done|by eapply lookup_lt_Some|congruence|congruence|done]. }
  rewrite Hfind', (update_fields_again _ _ _ Hupd).
  by rewrite list_insert_insert_eq.
Qed.


End EditFurther.


Lemma sum_maxMarks_in_step e :
  questions_in_step e → (0 ≤ numQuestions e)%Z →
  sum_maxMarks e = totalMarks e.
Proof.
  unfold questions_in_step, sum_maxMarks, totalMarks.
  generalize (numQuestions e) as n, (questions e) as qs.
  intros n qs. revert n. induction qs as [|q qs IH]; intros n [Hlen Hall] Hn.
  - simpl in *. lia.
  - apply Forall_cons in Hall as [Hq Hall]. simpl in *.
    rewrite (IH (n - 1)%Z); [lia| |lia]. split; [lia|done].
Qed.

Section ScheduleProperties.

Variable castToString : JsValue → option string.
Variable castToDate : JsValue → option Date.
Variable castToObjectId : JsValue → option ObjectId.
Variable parseInt : JsValue → option Z.
Variable newExamId : list Exam → ObjectId.

(** X9. The scheduling route either answers 201 and appends exactly one
    exam, owned by the requester, whose [numQuestions] and [k] are the
    parsed integers (of any sign) and whose questions are the placeholders
    in step with [numQuestions], or answers otherwise and leaves the store
    as it was. *)
Theorem schedule_exam_appends userId body db :
  (∃ exam,
     schedule_exam castToString castToDate castToObjectId parseInt newExamId
                   userId body db
     = (mkResponse 201 "Exam scheduled successfully" (Some exam),
        set_Exams (Exams db ++ [exam]) db)
     ∧ createdBy exam = userId
     ∧ exam_id exam = newExamId (Exams db)
     ∧ parseInt (sched_numQuestions body) = Some (numQuestions exam)
     ∧ parseInt (sched_k body) = Some (exam_k exam)
     ∧ questions exam = placeholder_questions (Some (numQuestions exam))
     ∧ questions_in_step exam)
  ∨ (res_status
       (fst (schedule_exam castToString castToDate castToObjectId parseInt
                           newExamId userId body db)) ≠ 201
     ∧ snd (schedule_exam castToString castToDate castToObjectId parseInt
                          newExamId userId body db) = db).
Proof.
  unfold schedule_exam.
  destruct (_ || _) eqn:Hguard; [right; simpl; split; [lia|done]|].
  destruct (castToObjectId (sched_courseId body)) as [course|];
    [|right; simpl; split; [lia|done]].
  destruct (castToObjectId (sched_batchId body)) as [batch|];
    [|right; simpl; split; [lia|done]].
  destruct (string_path castToString (sched_title body)) as [t|];
    [|right; simpl; split; [lia|done]].
  destruct (date_path castToDate (sched_startTime body)) as [s|];
    [|right; simpl; split; [lia|done]].
  destruct (date_path castToDate (sched_endTime body)) as [e|];
    [|right; simpl; split; [lia|done]].
  destruct (parseInt (sched_numQuestions body)) as [n|];
    [|right; simpl; split; [lia|done]].
  destruct (parseInt (sched_k body)) as [k|];
    [|right; simpl; split; [lia|done]].
  left. eexists. simpl. split_and!; try done.
  apply placeholder_questions_in_step.
Qed.

(** X10. What the exam list reports as [totalMarks], ten times
    [numQuestions], is the sum of the marks of the questions of every
    exam the scheduling route stores with a non-negative question count. *)
Theorem schedule_exam_totalMarks userId body db exam :
  fst (schedule_exam castToString castToDate castToObjectId parseInt
                     newExamId userId body db)
  = mkResponse 201 "Exam scheduled successfully" (Some exam) →
  (0 ≤ numQuestions exam)%Z →
  sum_maxMarks exam = totalMarks exam.
Proof.
  intros Hres Hn. apply sum_maxMarks_in_step; [|done].
  revert Hres. unfold schedule_exam.
  destruct (_ || _); [done|].
  destruct (castToObjectId (sched_courseId body)) as [course|]; [|done].
  destruct (castToObjectId (sched_batchId body)) as [batch|]; [|done].
  destruct (string_path castToString (sched_title body)) as [t|]; [|done].
  destruct (date_path castToDate (sched_startTime body)) as [s|]; [|done].
  destruct (date_path castToDate (sched_endTime body)) as [e|]; [|done].
  destruct (parseInt (sched_numQuestions body)) as [n|]; [|done].
  destruct (parseInt (sched_k body)) as [k|]; [|done].
  simpl. intros [= <-]. apply placeholder_questions_in_step.
Qed.

End ScheduleProperties.

Lemma schedule_exam_totalMarks_witness :
  sum_maxMarks
    (mkExam 1001 9 50 60 "Midterm" (NewDate "t0") (NewDate "t1") 3
       (placeholder_questions (Some 3%Z)) 2)
  = 30%Z.
Proof.
  apply (schedule_exam_totalMarks no_cast date_of_string id_of_number
           number_only next_id 9%N sample_schedule (db_of 2)).
  - reflexivity.
  - simpl. lia.
Defined.

(** * Further properties of the admin teacher controller *)

Lemma user_eta (u : User) :
  mkUser (user_id u) (user_name u) (user_email u) (user_role u)
         (enrolledCourses u) = u.
Proof. by destruct u. Qed.

Lemma set_Users_same (db : DB) : set_Users (Users db) db = db.
Proof. by destruct db. Qed.

Lemma list_find_insert_same {A} (P : A → Prop) `{∀ x, Decision (P x)}
    (l : list A) i x y :
  list_find P l = Some (i, x) → P y →
  list_find P (<[i:=y]> l) = Some (i, y).
Proof.
  intros (Hi & _ & Hleast)%list_find_Some Hy.
  apply list_find_insert_Some. right; left.
  split_and!; [done|done|by eapply lookup_lt_Some|done|done].
Qed.

Lemma filter_id_snoc (c : N) (l : list N) :
  c ∉ l → filter (λ id, ¬ id = c) (l ++ [c]) = l.
Proof.
  intros Hc. rewrite filter_app, filter_all.
  - rewrite filter_cons_False by (by intros []). by rewrite app_nil_r.
  - apply Forall_forall. intros x Hx ->. done.
Qed.

Lemma assignTeacherToCourse_run email courseCode db i teacher course :
  list_find (λ u, user_email u = email ∧ user_role u = "teacher"%string)
            (Users db) = Some (i, teacher) →
  findOne (λ c, course_code c = courseCode) (Courses db) = Some course →
  ∃ teacher',
    assignTeacherToCourse email courseCode db
    = (json 200 "Teacher assigned to course successfully",
       set_Users (<[i:=teacher']> (Users db)) db)
    ∧ same_but_courses teacher teacher'
    ∧ enrolledCourses teacher'
      = (if decide (course_id course ∈ enrolledCourses teacher)
         then enrolledCourses teacher
         else enrolledCourses teacher ++ [course_id course]).
Proof.
  intros Hteacher Hcourse. unfold assignTeacherToCourse.
  rewrite Hteacher, Hcourse.
  destruct (existsb _ (enrolledCourses teacher)) eqn:Hassigned; simpl.
  - apply existsb_elem_of in Hassigned. exists teacher.
    rewrite decide_True by done. split_and!; [|done..].
    apply list_find_Some in Hteacher as (Hi & _).
    by rewrite (list_insert_id _ _ _ Hi), set_Users_same.
  - eexists. split_and!; [reflexivity|done|]. simpl.
    rewrite decide_False; [done|]. intros Hin%existsb_elem_of. congruence.
Qed.

(** X11. When the teacher and the course exist, [assignTeacherToCourse]
    answers 200 and rewrites only that teacher's document, in place: the
    course is in the list afterwards, the courses already listed stay in
    front in their order, a list without repetition stays so, and the
    teacher's other fields are unchanged. *)
Theorem assignTeacherToCourse_adds_course email courseCode db i teacher course :
  list_find (λ u, user_email u = email ∧ user_role u = "teacher"%string)
            (Users db) = Some (i, teacher) →
  findOne (λ c, course_code c = courseCode) (Courses db) = Some course →
  ∃ teacher',
    assignTeacherToCourse email courseCode db
    = (json 200 "Teacher assigned to course successfully",
       set_Users (<[i:=teacher']> (Users db)) db)
    ∧ same_but_courses teacher teacher'
    ∧ course_id course ∈ enrolledCourses teacher'
    ∧ enrolledCourses teacher `prefix_of` enrolledCourses teacher'
    ∧ (NoDup (enrolledCourses teacher) → NoDup (enrolledCourses teacher')).
Proof.
  intros Hteacher Hcourse.
  destruct (assignTeacherToCourse_run _ _ _ _ _ _ Hteacher Hcourse)
    as (teacher' & Hrun & Hsame & Hcourses).
  exists teacher'. rewrite Hcourses. split_and!; [done|done|..];
    case_decide as Hin; try done.
  - apply elem_of_app. right. by apply list_elem_of_singleton.
  - by apply prefix_app_r.
  - intros Hnd. apply NoDup_app. split_and!; [done| |apply NoDup_singleton].
    intros x Hx ->%list_elem_of_singleton. done.
Qed.

Lemma assignTeacherToCourse_adds_course_witness :
  ∃ teacher',
    assignTeacherToCourse "dave@x" "CS1" (db_of 2)
    = (json 200 "Teacher assigned to course successfully",
       set_Users (<[3:=teacher']> (Users (db_of 2))) (db_of 2))
    ∧ same_but_courses dave teacher'
    ∧ (50%N) ∈ enrolledCourses teacher'
    ∧ enrolledCourses dave `prefix_of` enrolledCourses teacher'
    ∧ (NoDup (enrolledCourses dave) → NoDup (enrolledCourses teacher')).
Proof.
  apply (assignTeacherToCourse_adds_course "dave@x" "CS1" (db_of 2) 3 dave
           (mkCourse 50 "CS1")); reflexivity.
Defined.

(** X12. Unassigning right after assigning a course the teacher did not
    have restores the store exactly. *)
Theorem unassign_after_assign email courseCode db i teacher course :
  list_find (λ u, user_email u = email ∧ user_role u = "teacher"%string)
            (Users db) = Some (i, teacher) →
  findOne (λ c, course_code c = courseCode) (Courses db) = Some course →
  course_id course ∉ enrolledCourses teacher →
  unassignTeacherFromCourse email courseCode
    (snd (assignTeacherToCourse email courseCode db))
  = (json 200 "Course unassigned from teacher successfully", db).
Proof.
  intros Hteacher Hcourse Hnotin.
  destruct (assignTeacherToCourse_run _ _ _ _ _ _ Hteacher Hcourse)
    as (teacher' & -> & (Hid & Hname & Hemail & Hrole) & Hcourses).
  rewrite decide_False in Hcourses by done.
  simpl. unfold unassignTeacherFromCourse. simpl.
  rewrite (list_find_insert_same _ _ _ _ teacher' Hteacher).
  2: { apply list_find_Some in Hteacher as (_ & [He Hr] & _).
       split; congruence. }
  rewrite Hcourse, Hcourses, filter_id_snoc by done.
  rewrite Hid, Hname, Hemail, Hrole, user_eta, list_insert_insert_eq.
  apply list_find_Some in Hteacher as (Hi & _).
  rewrite (list_insert_id _ _ _ Hi). f_equal. by destruct db.
Qed.

Lemma unassign_after_assign_witness :
  unassignTeacherFromCourse "dave@x" "CS1"
    (snd (assignTeacherToCourse "dave@x" "CS1" (db_of 2)))
  = (json 200 "Course unassigned from teacher successfully", db_of 2).
Proof.
  apply (unassign_after_assign "dave@x" "CS1" (db_of 2) 3 dave
           (mkCourse 50 "CS1")); [reflexivity|reflexivity|].
  apply not_elem_of_nil.
Defined.

Lemma filter_again {A} (P : A → Prop) `{∀ x, Decision (P x)} (l : list A) :
  filter P (filter P l) = filter P l.
Proof.
  apply filter_all, Forall_forall. by intros x [? _]%list_elem_of_filter.
Qed.

(** X13. [unassignTeacherFromCourse] removes every occurrence of the
    course: afterwards the course is not in the teacher's list (a new
    assignment would append it), and unassigning a second time yields the
    same answer and the same store. *)
Theorem unassignTeacherFromCourse_clears email courseCode db :
  ¬ already_assigned email courseCode
      (snd (unassignTeacherFromCourse email courseCode db))
  ∧ unassignTeacherFromCourse email courseCode
      (snd (unassignTeacherFromCourse email courseCode db))
    = unassignTeacherFromCourse email courseCode db.
Proof.
  unfold unassignTeacherFromCourse at 1 3 4.
  destruct (list_find _ (Users db)) as [[i teacher]|] eqn:Hteacher.
  2: { simpl. split.
       - intros (j & t & c & Hfind & _). congruence.
       - unfold unassignTeacherFromCourse. by rewrite Hteacher. }
  destruct (findOne _ (Courses db)) as [course|] eqn:Hcourse.
  2: { simpl. split.
       - intros (j & t & c & _ & Hfind & _). congruence.
       - unfold unassignTeacherFromCourse. by rewrite Hteacher, Hcourse. }
  simpl. set (teacher' := mkUser _ _ _ _ _).
  assert (Hfind' : list_find
            (λ u, user_email u = email ∧ user_role u = "teacher"%string)
            (<[i:=teacher']> (Users db)) = Some (i, teacher')).
  { apply (list_find_insert_same _ _ _ teacher); [done|].
    by apply list_find_Some in Hteacher as (_ & HP & _). }
  split.
  - intros (j & t & c & Hfind & Hc & Hin). simpl in Hfind, Hc.
    rewrite Hfind' in Hfind. injection Hfind as <- <-.
    rewrite Hcourse in Hc. injection Hc as <-.
    simpl in Hin. by apply list_elem_of_filter in Hin as [Hne _].
  - unfold unassignTeacherFromCourse. simpl. rewrite Hfind', Hcourse.
    simpl. by rewrite filter_again, list_insert_insert_eq.
Qed.

Lemma elem_of_delete_other {A} (l : list A) i x y :
  l !! i = Some x → y ≠ x → y ∈ delete i l ↔ y ∈ l.
Proof.
  intros Hi Hne. split; [apply list_elem_of_delete_inv|].
  intros [j Hj]%list_elem_of_lookup. apply list_elem_of_lookup.
  destruct (decide (j < i)) as [Hlt|Hge].
  - exists j. by rewrite list_lookup_delete_lt.
  - destruct (decide (j = i)) as [->|Hji]; [congruence|].
    exists (j - 1). rewrite list_lookup_delete_ge by lia.
    by replace (S (j - 1)) with j by lia.
Qed.

(** X14. [deleteTeacher] either finds no teacher with the email, answers
    404 and changes nothing, or removes exactly one document, a teacher
    with that email: every user that is not a teacher with that email
    stays, and courses, exams, submissions and evaluations (the exams the
    teacher created included) are left as they are. *)
Theorem deleteTeacher_removes_one email db :
  (Forall (λ u, ¬ (user_email u = email ∧ user_role u = "teacher"%string))
          (Users db)
   ∧ deleteTeacher email db = (json 404 "Teacher not found", db))
  ∨ (∃ i t,
       Users db !! i = Some t
       ∧ user_email t = email ∧ user_role t = "teacher"%string
       ∧ deleteTeacher email db
         = (json 200 "Teacher deleted successfully",
            set_Users (delete i (Users db)) db)
       ∧ length (delete i (Users db)) + 1 = length (Users db)
       ∧ ∀ u, ¬ (user_email u = email ∧ user_role u = "teacher"%string) →
              u ∈ delete i (Users db) ↔ u ∈ Users db).
Proof.
  unfold deleteTeacher.
  destruct (list_find _ (Users db)) as [[i t]|] eqn:Hfind.
  - right. apply list_find_Some in Hfind as (Hi & [He Hr] & _).
    exists i, t. split_and!; try done.
    + rewrite length_delete by eauto.
      apply lookup_lt_Some in Hi. lia.
    + intros u Hu. apply (elem_of_delete_other _ _ t); [done|].
      intros ->. by apply Hu.
  - left. split; [|done]. by apply list_find_None in Hfind.
Qed.

(** X15. With e-mail addresses unique among the users, a deleted teacher
    is gone for good: deleting again, assigning a course or unassigning
    one for that e-mail is answered "Teacher not found" and changes
    nothing. *)
Theorem deleteTeacher_then_not_found email courseCode db :
  NoDup (user_email <$> Users db) →
  res_status (fst (deleteTeacher email db)) = 200 →
  deleteTeacher email (snd (deleteTeacher email db))
  = (json 404 "Teacher not found", snd (deleteTeacher email db))
  ∧ assignTeacherToCourse email courseCode (snd (deleteTeacher email db))
    = (json 404 "Teacher not found", snd (deleteTeacher email db))
  ∧ unassignTeacherFromCourse email courseCode
      (snd (deleteTeacher email db))
    = (json 404 "Teacher not found", snd (deleteTeacher email db)).
Proof.
  intros Hnd.
  destruct (list_find
              (λ u, user_email u = email ∧ user_role u = "teacher"%string)
              (Users db)) as [[i t]|] eqn:Hfind.
  2: { unfold deleteTeacher. rewrite Hfind. simpl. lia. }
  assert (Hrun : deleteTeacher email db
                 = (json 200 "Teacher deleted successfully",
                    set_Users (delete i (Users db)) db)).
  { unfold deleteTeacher. by rewrite Hfind. }
  rewrite Hrun. simpl. intros _.
  apply list_find_Some in Hfind as (Hi & [He _] & _).
  assert (Hnone : list_find
            (λ u, user_email u = email ∧ user_role u = "teacher"%string)
            (delete i (Users db)) = None).
  { apply list_find_None, Forall_forall.
    intros u (j & Hji & Hj)%elem_of_delete_lookup [Hu _]. apply Hji.
    apply (NoDup_lookup (user_email <$> Users db) j i email Hnd);
      rewrite list_lookup_fmap.
    - by rewrite Hj; simpl; rewrite Hu.
    - by rewrite Hi; simpl; rewrite He. }
  unfold deleteTeacher, assignTeacherToCourse, unassignTeacherFromCourse.
  simpl. by rewrite Hnone.
Qed.

Lemma deleteTeacher_then_not_found_witness :
  deleteTeacher "dave@x" (snd (deleteTeacher "dave@x" (db_of 2)))
  = (json 404 "Teacher not found", snd (deleteTeacher "dave@x" (db_of 2)))
  ∧ assignTeacherToCourse "dave@x" "CS1"
      (snd (deleteTeacher "dave@x" (db_of 2)))
    = (json 404 "Teacher not found", snd (deleteTeacher "dave@x" (db_of 2)))
  ∧ unassignTeacherFromCourse "dave@x" "CS1"
      (snd (deleteTeacher "dave@x" (db_of 2)))
    = (json 404 "Teacher not found", snd (deleteTeacher "dave@x" (db_of 2))).
Proof.
  apply (deleteTeacher_then_not_found "dave@x" "CS1" (db_of 2)).
  - apply (bool_decide_unpack _). vm_compute. reflexivity.
  - reflexivity.
Defined.

(** * Further properties of the role route *)

Section RoleProperties.

Variable castToString : JsValue → option string.
Variable roleAllowed : string → bool.

Lemma same_but_role_refl u : same_but_role u u.
Proof. by unfold same_but_role. Qed.

(** X16. Whatever the request and the answer, the role route keeps the
    users in place and leaves each one's id, name, e-mail and courses as
    they were; courses, exams, submissions and evaluations are
    untouched. *)
Theorem update_role_changes_roles_only email role db :
  Forall2 same_but_role (Users db)
    (Users (snd (update_role castToString roleAllowed email role db)))
  ∧ set_Users (Users db)
      (snd (update_role castToString roleAllowed email role db)) = db.
Proof.
  assert (Hrefl : Forall2 same_but_role (Users db) (Users db)).
  { apply Forall_Forall2_diag, Forall_forall. intros u _.
    apply same_but_role_refl. }
  unfold update_role.
  destruct (_ || _); [by rewrite set_Users_same|].
  destruct (string_path castToString email) as [email'|];
    [|by rewrite set_Users_same].
  destruct (list_find _ (Users db)) as [[i user]|] eqn:Hfind;
    [|by rewrite set_Users_same].
  destruct (string_path castToString role) as [role'|];
    [|by rewrite set_Users_same].
  destruct (roleAllowed role'); [|by rewrite set_Users_same].
  simpl. split; [|by destruct db].
  apply list_find_Some in Hfind as (Hi & _).
  rewrite <- (list_insert_id _ _ _ Hi) at 1.
  apply Forall2_insert; [done|]. by unfold same_but_role.
Qed.

(** X17. Promoting a user to teacher makes the user assignable: after the
    role route has set the first user with a non-empty e-mail to the
    allowed role "teacher", [assignTeacherToCourse] for that e-mail and an
    existing course answers 200 and puts the course on that very user. *)
Theorem update_role_then_assign email courseCode db i user course :
  email ≠ EmptyString →
  roleAllowed "teacher" = true →
  list_find (λ u, user_email u = email) (Users db) = Some (i, user) →
  findOne (λ c, course_code c = courseCode) (Courses db) = Some course →
  ∃ teacher',
    fst (assignTeacherToCourse email courseCode
           (snd (update_role castToString roleAllowed
                             (JsString email) (JsString "teacher") db)))
    = json 200 "Teacher assigned to course successfully"
    ∧ Users (snd (assignTeacherToCourse email courseCode
               (snd (update_role castToString roleAllowed
                                 (JsString email) (JsString "teacher") db))))
        !! i = Some teacher'
    ∧ user_id teacher' = user_id user
    ∧ user_role teacher' = "teacher"%string
    ∧ course_id course ∈ enrolledCourses teacher'.
Proof.
  intros Hemail Hallowed Hfind Hcourse.
  unfold update_role. simpl.
  replace (String.eqb email "") with false
    by (symmetry; by apply String.eqb_neq).
  simpl. rewrite Hfind, Hallowed. simpl.
  set (user' := mkUser _ _ _ _ _).
  pose proof Hfind as (Hi & He & Hleast)%list_find_Some.
  assert (Hteacher : list_find
            (λ u, user_email u = email ∧ user_role u = "teacher"%string)
            (<[i:=user']> (Users db)) = Some (i, user')).
  { apply list_find_insert_Some. right; left.
    split_and!; [done|done|by eapply lookup_lt_Some|done|done|].
    intros j z Hj Hlt [Hz _]. by apply (Hleast j z). }
  destruct (assignTeacherToCourse_run email courseCode
              (set_Users (<[i:=user']> (Users db)) db) i user' course
              Hteacher Hcourse)
    as (teacher' & -> & (Hid & _ & _ & Hrole) & Hcourses).
  exists teacher'. simpl. split_and!; [done| |done|done|].
  - rewrite list_insert_insert_eq. apply list_lookup_insert_eq.
    by eapply lookup_lt_Some.
  - rewrite Hcourses. case_decide; [done|].
    apply elem_of_app. right. by apply list_elem_of_singleton.
Qed.

End RoleProperties.

Lemma update_role_then_assign_witness :
  ∃ teacher',
    fst (assignTeacherToCourse "bob@x" "CS1"
           (snd (update_role no_cast (λ _, true)
                             (JsString "bob@x") (JsString "teacher")
                             (db_of 2))))
    = json 200 "Teacher assigned to course successfully"
    ∧ Users (snd (assignTeacherToCourse "bob@x" "CS1"
               (snd (update_role no_cast (λ _, true)
                                 (JsString "bob@x") (JsString "teacher")
                                 (db_of 2)))))
        !! 1 = Some teacher'
    ∧ user_id teacher' = user_id bob
    ∧ user_role teacher' = "teacher"%string
    ∧ (50%N) ∈ enrolledCourses teacher'.
Proof.
  apply (update_role_then_assign no_cast (λ _, true) "bob@x" "CS1" (db_of 2)
           1 bob (mkCourse 50 "CS1")).
  - discriminate.
  - reflexivity.
  - reflexivity.
  - reflexivity.
Defined.

(** * Further properties of the teacher list *)

(** X18. After a successful [assignTeacherToCourse], the teacher list
    shows the teacher with a populated course of the assigned id. *)
Theorem getAllTeachers_shows_assigned email courseCode db i teacher course :
  list_find (λ u, user_email u = email ∧ user_role u = "teacher"%string)
            (Users db) = Some (i, teacher) →
  findOne (λ c, course_code c = courseCode) (Courses db) = Some course →
  ∃ u cs c,
    (u, cs) ∈ getAllTeachers (snd (assignTeacherToCourse email courseCode db))
    ∧ user_id u = user_id teacher ∧ user_email u = email
    ∧ c ∈ cs ∧ course_id c = course_id course ∧ c ∈ Courses db.
Proof.
  intros Hteacher Hcourse.
  destruct (assignTeacherToCourse_run _ _ _ _ _ _ Hteacher Hcourse)
    as (teacher' & -> & (Hid & _ & Hemail & Hrole) & Hcourses).
  pose proof Hteacher as (Hi & [He Hr] & _)%list_find_Some.
  pose proof Hcourse as [Hin _]%findOne_Some.
  destruct (findOne (λ c, course_id c = course_id course) (Courses db))
    as [c|] eqn:Hc.
  2: { apply findOne_None in Hc. rewrite Forall_forall in Hc.
       by destruct (Hc course Hin). }
  pose proof Hc as [Hcin Hcid]%findOne_Some.
  exists teacher', (populate_courses
                      (set_Users (<[i:=teacher']> (Users db)) db) teacher'), c.
  simpl. split_and!; [|done|congruence| |done|done].
  - unfold getAllTeachers. apply list_elem_of_fmap. exists teacher'.
    split; [done|]. apply list_elem_of_filter. split; [congruence|].
    simpl. apply list_elem_of_insert. by eapply lookup_lt_Some.
  - unfold populate_courses. apply list_elem_of_omap.
    exists (course_id course). split; [|done].
    rewrite Hcourses. case_decide; [done|].
    apply elem_of_app. right. by apply list_elem_of_singleton.
Qed.

Lemma getAllTeachers_shows_assigned_witness :
  ∃ u cs c,
    (u, cs) ∈ getAllTeachers
                (snd (assignTeacherToCourse "dave@x" "CS1" (db_of 2)))
    ∧ user_id u = user_id dave ∧ user_email u = "dave@x"%string
    ∧ c ∈ cs ∧ course_id c = 50%N ∧ c ∈ Courses (db_of 2).
Proof.
  apply (getAllTeachers_shows_assigned "dave@x" "CS1" (db_of 2) 3 dave
           (mkCourse 50 "CS1")); reflexivity.
Defined.

(** * Properties of the enrolment *)

Lemma gained_refl course u : gained course u u.
Proof. split; [by unfold same_but_courses|by left]. Qed.

Lemma gained_trans course u1 u2 u3 :
  gained course u1 u2 → gained course u2 u3 → gained course u1 u3.
Proof.
  intros [(? & ? & ? & ?) H12] [(? & ? & ? & ?) H23].
  split; [unfold same_but_courses; split_and!; congruence|].
  destruct H12 as [E12|[Hc E12]], H23 as [E23|[Hc' E23]];
    rewrite ?E23, ?E12 in *; auto.
  exfalso. apply Hc'. apply elem_of_app. right.
  by apply list_elem_of_singleton.
Qed.

Lemma gained_course course u u' :
  gained course u u' → course ∈ enrolledCourses u →
  course ∈ enrolledCourses u'.
Proof. intros [_ [->|[Hc _]]] Hin; done. Qed.

Lemma grown_refl course users : grown course users users.
Proof.
  exists users, []. rewrite app_nil_r. split_and!; [done| |done].
  apply Forall_Forall2_diag, Forall_forall. intros u _. apply gained_refl.
Qed.

Lemma Forall2_gained_trans course l1 l2 l3 :
  Forall2 (gained course) l1 l2 → Forall2 (gained course) l2 l3 →
  Forall2 (gained course) l1 l3.
Proof.
  intros H12. revert l3. induction H12 as [|u1 u2 l1 l2 Hu _ IH];
    intros l3 H23; inversion H23; subst; constructor;
    eauto using gained_trans.
Qed.

Lemma grown_trans course a b d :
  grown course a b → grown course b d → grown course a d.
Proof.
  intros (ob & cb & -> & Hab & Hcb) (od & cd & -> & Hbd & Hcd).
  apply Forall2_app_inv_l in Hbd as (od1 & od2 & H1 & H2 & ->).
  exists od1, (od2 ++ cd). split_and!.
  - by rewrite app_assoc.
  - by eapply Forall2_gained_trans.
  - apply Forall_app. split; [|done]. clear -Hcb H2.
    induction H2 as [|u u' l l' Hu _ IH]; [done|].
    apply Forall_cons in Hcb as [[Hrole Hcourses] Hcb].
    constructor; [|by apply IH].
    destruct Hu as [(_ & _ & _ & Hr) [E|[Hc E]]].
    + split; congruence.
    + exfalso. apply Hc. rewrite Hcourses. by apply list_elem_of_singleton.
Qed.

Lemma grown_find course users users' (email : string) j u :
  grown course users users' →
  list_find (λ u, user_email u = email) users = Some (j, u) →
  ∃ u', list_find (λ u, user_email u = email) users' = Some (j, u')
        ∧ gained course u u'.
Proof.
  intros (olds & created & -> & Hold & _) (Hj & He & Hleast)%list_find_Some.
  destruct (Forall2_lookup_l _ _ _ _ _ Hold Hj) as (u' & Hj' & Hg).
  exists u'. split; [|done]. apply list_find_app_l, list_find_Some.
  split_and!; [done| |].
  - destruct Hg as [(_ & _ & Hemail & _) _]. congruence.
  - intros k z Hk Hlt Hz.
    destruct (Forall2_lookup_r _ _ _ _ _ Hold Hk) as (z0 & Hk0 & Hg0).
    apply (Hleast k z0 Hk0 Hlt).
    destruct Hg0 as [(_ & _ & Hemail & _) _]. congruence.
Qed.

Section EnrollmentProperties.

Variable newUserId : list User → ObjectId.
Variable castToObjectId : JsValue → option ObjectId.

Lemma enroll_loop_spec course students users ids users' ids' :
  enroll_loop newUserId course students users ids = (users', ids') →
  grown course users users'
  ∧ ∃ newids, ids' = ids ++ newids
              ∧ Forall2 (enrolled_as course users') students newids.
Proof.
  revert users ids. induction students as [|[name email] rest IH];
    intros users ids; simpl.
  { intros [= <- <-]. split; [apply grown_refl|].
    exists []. by rewrite app_nil_r. }
  assert (Hstep : ∀ users1 j u1,
    grown course users users1 →
    list_find (λ u, user_email u = email) users1 = Some (j, u1) →
    course ∈ enrolledCourses u1 →
    enroll_loop newUserId course rest users1 (ids ++ [user_id u1])
    = (users', ids') →
    grown course users users'
    ∧ ∃ newids, ids' = ids ++ newids
        ∧ Forall2 (enrolled_as course users') ((name, email) :: rest) newids).
  { intros users1 j u1 Hgrown Hfind Hin Hrun.
    destruct (IH _ _ Hrun) as (Hgrown' & newids & -> & Hall).
    split; [by eapply grown_trans|].
    exists (user_id u1 :: newids). split; [by rewrite <- app_assoc|].
    constructor; [|done].
    destruct (grown_find _ _ _ _ _ _ Hgrown' Hfind) as (u' & Hfind' & Hg).
    exists j, u'. split_and!; [done| |by eapply gained_course].
    destruct Hg as [(Hid & _) _]. done. }
  destruct (list_find _ users) as [[i student]|] eqn:Hfind.
  - case_bool_decide as Hin.
    + apply (Hstep users i student); [apply grown_refl|done..].
    + set (student' := mkUser _ _ _ _ _).
      pose proof Hfind as (Hi & He & _)%list_find_Some.
      apply (Hstep (<[i:=student']> users) i student').
      * exists (<[i:=student']> users), []. rewrite app_nil_r.
        split_and!; [done| |done].
        rewrite <- (list_insert_id _ _ _ Hi) at 1.
        apply Forall2_insert.
        { apply Forall_Forall2_diag, Forall_forall. intros u _.
          apply gained_refl. }
        split; [by unfold same_but_courses|]. right. done.
      * by apply (list_find_insert_same _ _ _ student).
      * simpl. apply elem_of_app. right. by apply list_elem_of_singleton.
  - set (student := mkUser _ _ _ _ _).
    apply (Hstep (users ++ [student]) (length users) student).
    + exists users, [student]. split_and!; [done| |by repeat constructor].
      apply Forall_Forall2_diag, Forall_forall. intros u _.
      apply gained_refl.
    + rewrite list_find_app_r by done. simpl.
      rewrite decide_True by done. done.
    + simpl. by apply list_elem_of_singleton.
Qed.

Lemma enroll_loop_settled course students users ids newids :
  Forall2 (enrolled_as course users) students newids →
  enroll_loop newUserId course students users ids = (users, ids ++ newids).
Proof.
  intros Hall. revert ids.
  induction Hall as [|[name email] id rest newids' Hentry _ IH];
    intros ids; simpl.
  { by rewrite app_nil_r. }
  destruct Hentry as (j & u & Hfind & <- & Hin). simpl in Hfind.
  rewrite Hfind, bool_decide_eq_true_2 by done.
  rewrite IH. by rewrite <- app_assoc.
Qed.

End EnrollmentProperties.

Section EnrollmentHandler.

Variable newUserId : list User → ObjectId.
Variable castToObjectId : JsValue → option ObjectId.



(** X20. After a 200, every entry of the request denotes a user (the first
    with that e-mail) who has the batch's course and is a member of the
    batch; the members added were not members before, and the counts of
    the answer are their number and the new size of the batch. *)
Theorem enrollStudentsToBatch_covers batchId students st :
  enroll_status (fst (enrollStudentsToBatch newUserId castToObjectId
                        batchId students st)) = 200 →
  ∃ id bi batch batch' entries new,
    castToObjectId batchId = Some id
    ∧ students = Some entries
    ∧ list_find (λ b, batch_id b = id) (Batches st) = Some (bi, batch)
    ∧ Batches (snd (enrollStudentsToBatch newUserId castToObjectId
                      batchId students st)) !! bi = Some batch'
    ∧ batch_students batch' = batch_students batch ++ new
    ∧ Forall (λ x, x ∉ batch_students batch) new
    ∧ enroll_counts (fst (enrollStudentsToBatch newUserId castToObjectId
                            batchId students st))
      = Some (length new, length (batch_students batch) + length new)
    ∧ Forall (λ entry, ∃ x,
                enrolled_as (batch_course batch)
                  (Users (store_db
                     (snd (enrollStudentsToBatch newUserId castToObjectId
                             batchId students st))))
                  entry x
                ∧ x ∈ batch_students batch') entries.
Proof.
  unfold enrollStudentsToBatch.
  destruct students as [entries|]; [|simpl; lia].
  destruct (truthy batchId); [|simpl; lia].
  unfold enroll_into.
  destruct (castToObjectId batchId) as [id|]; [|simpl; lia].
  destruct (list_find _ (Batches st)) as [[bi batch]|] eqn:Hbatch;
    [|simpl; lia].
  destruct (enroll_loop _ _ _ _ _) as [users' ids] eqn:Hloop.
  apply enroll_loop_spec in Hloop as (_ & newids & -> & Hall).
  simpl. intros _.
  set (new := filter (λ x, x ∉ batch_students batch) newids).
  exists id, bi, batch,
    (mkBatch (batch_id batch) (batch_name batch) (batch_course batch)
             (batch_instructor batch) (batch_students batch ++ new)),
    entries, new.
  split_and!; [done|done|done| |reflexivity| | |].
  - apply list_lookup_insert_eq.
    apply list_find_Some in Hbatch as (Hbi & _). by eapply lookup_lt_Some.
  - apply Forall_forall. by intros x [? _]%list_elem_of_filter.
  - by rewrite length_app.
  - simpl. clear -Hall. subst new.
    induction Hall as [|entry x entries newids Hx _ IH]; [done|].
    constructor.
    + exists x. split; [done|].
      destruct (decide (x ∈ batch_students batch)) as [Hin|Hout].
      * apply elem_of_app. by left.
      * apply elem_of_app. right. rewrite filter_cons_True by done.
        by apply elem_of_cons; left.
    + eapply Forall_impl; [exact IH|]. intros e (y & Hy & Hin).
      exists y. split; [done|].
      apply elem_of_app in Hin as [Hin|Hin]; apply elem_of_app; [by left|].
      right. rewrite filter_cons. case_decide; [|done].
      by apply elem_of_cons; right.
Qed.

Lemma batch_eta (b : Batch) :
  mkBatch (batch_id b) (batch_name b) (batch_course b) (batch_instructor b)
          (batch_students b) = b.
Proof. by destruct b. Qed.

Lemma enroll_into_again batchId entries st :
  enroll_status (fst (enroll_into newUserId castToObjectId
                        batchId entries st)) = 200 →
  ∃ added total,
    enroll_counts (fst (enroll_into newUserId castToObjectId
                          batchId entries st)) = Some (added, total)
    ∧ enroll_into newUserId castToObjectId batchId entries
        (snd (enroll_into newUserId castToObjectId batchId entries st))
      = (mkEnrollResponse 200 "Students enrolled successfully"
           (Some (0, total)),
         snd (enroll_into newUserId castToObjectId batchId entries st)).
Proof.
  destruct (castToObjectId batchId) as [id|] eqn:Hid.
  2: { unfold enroll_into. rewrite Hid. simpl. lia. }
  destruct (list_find (λ b, batch_id b = id) (Batches st))
    as [[bi batch]|] eqn:Hbatch.
  2: { unfold enroll_into. rewrite Hid, Hbatch. simpl. lia. }
  destruct (enroll_loop newUserId (batch_course batch) entries
              (Users (store_db st)) []) as [users' ids] eqn:Hloop.
  set (new := filter (λ x, x ∉ batch_students batch) ids).
  set (batch' := mkBatch (batch_id batch) (batch_name batch)
                         (batch_course batch) (batch_instructor batch)
                         (batch_students batch ++ new)).
  assert (Hrun : enroll_into newUserId castToObjectId batchId entries st
            = (mkEnrollResponse 200 "Students enrolled successfully"
                 (Some (length new, length (batch_students batch'))),
               mkStore (set_Users users' (store_db st))
                       (<[bi:=batch']> (Batches st)))).
  { unfold enroll_into. by rewrite Hid, Hbatch, Hloop. }
  rewrite Hrun. simpl. intros _.
  apply enroll_loop_spec in Hloop as (_ & newids & -> & Hall).
  simpl in *.
  eexists _, _. split; [reflexivity|].
  unfold enroll_into. simpl. rewrite Hid.
  rewrite (list_find_insert_same _ _ _ batch batch' Hbatch).
  2: { by apply list_find_Some in Hbatch as (_ & ? & _). }
  simpl. rewrite (enroll_loop_settled newUserId _ _ _ [] newids Hall).
  simpl.
  assert (Hnone : filter (λ x, x ∉ batch_students batch ++ new) newids = []).
  { apply filter_none, Forall_forall. intros x Hx Hout. apply Hout.
    destruct (decide (x ∈ batch_students batch)) as [Hin|Hnotin];
      apply elem_of_app; [by left|right].
    by apply list_elem_of_filter. }
  rewrite Hnone, app_nil_r. fold batch'.
  rewrite list_insert_insert_eq. done.
Qed.

(** X21. Enrolling the same list again after a 200 is answered 200 with
    no newly enrolled student and the same batch size, and leaves the
    store exactly as the first call left it. *)
Theorem enrollStudentsToBatch_again batchId students st :
  enroll_status (fst (enrollStudentsToBatch newUserId castToObjectId
                        batchId students st)) = 200 →
  ∃ added total,
    enroll_counts (fst (enrollStudentsToBatch newUserId castToObjectId
                          batchId students st)) = Some (added, total)
    ∧ enrollStudentsToBatch newUserId castToObjectId batchId students
        (snd (enrollStudentsToBatch newUserId castToObjectId
                batchId students st))
      = (mkEnrollResponse 200 "Students enrolled successfully"
           (Some (0, total)),
         snd (enrollStudentsToBatch newUserId castToObjectId
                batchId students st)).
Proof.
  unfold enrollStudentsToBatch.
  destruct students as [entries|]; [|simpl; lia].
  destruct (truthy batchId); [|simpl; lia].
  apply enroll_into_again.
Qed.

(** X25. Uploading the same file to the CSV route again after a 200 is
    answered 200 with no newly enrolled student and the same batch size,
    and leaves the store exactly as the first upload left it. *)
Theorem enroll_students_route_again batchId csvFile st :
  enroll_status (fst (enroll_students_route newUserId castToObjectId
                        batchId csvFile st)) = 200 →
  ∃ added total,
    enroll_counts (fst (enroll_students_route newUserId castToObjectId
                          batchId csvFile st)) = Some (added, total)
    ∧ enroll_students_route newUserId castToObjectId batchId csvFile
        (snd (enroll_students_route newUserId castToObjectId
                batchId csvFile st))
      = (mkEnrollResponse 200 "Students enrolled successfully"
           (Some (0, total)),
         snd (enroll_students_route newUserId castToObjectId
                batchId csvFile st)).
Proof.
  unfold enroll_students_route.
  destruct csvFile as [csvContent|]; [|simpl; lia].
  destruct (truthy batchId); [|simpl; lia].
  destruct (parse_students csvContent) as [entries|]; [|simpl; lia].
  apply enroll_into_again.
Qed.

Hypothesis newUserId_fresh : ∀ users, newUserId users ∉ user_id <$> users.

Lemma enroll_loop_ids_NoDup course students users ids users' ids' :
  NoDup (user_id <$> users) →
  enroll_loop newUserId course students users ids = (users', ids') →
  NoDup (user_id <$> users').
Proof.
  revert users ids. induction students as [|[name email] rest IH];
    intros users ids Hnd; simpl.
  { by intros [= <- <-]. }
  destruct (list_find _ users) as [[i student]|] eqn:Hfind.
  - case_bool_decide; [by apply IH|]. apply IH.
    rewrite list_fmap_insert. simpl.
    apply list_find_Some in Hfind as (Hi & _).
    rewrite list_insert_id; [done|]. by rewrite list_lookup_fmap, Hi.
  - apply IH. rewrite fmap_app. apply NoDup_app. split_and!; [done| |].
    + intros x Hx ->%list_elem_of_singleton.
      by apply (newUserId_fresh users).
    + apply NoDup_singleton.
Qed.

Lemma enrolled_ids_NoDup course users entries newids :
  NoDup (user_id <$> users) →
  NoDup (snd <$> entries) →
  Forall2 (enrolled_as course users) entries newids →
  NoDup newids.
Proof.
  intros Hids Hemails Hall.
  induction Hall as [|entry x entries newids Hx Hall IH]; [constructor|].
  rewrite fmap_cons in Hemails. apply NoDup_cons in Hemails as [He Hemails].
  constructor; [|by apply IH].
  intros (k & Hk)%list_elem_of_lookup.
  destruct (Forall2_lookup_r _ _ _ _ _ Hall Hk) as (entry' & Hk' & Hx').
  destruct Hx as (j & u & (Hj & Hu & _)%list_find_Some & Hid & _).
  destruct Hx' as (j' & u' & (Hj' & Hu' & _)%list_find_Some & Hid' & _).
  assert (j = j') as <-.
  { apply (NoDup_lookup (user_id <$> users) j j' x Hids);
      rewrite list_lookup_fmap.
    - by rewrite Hj; simpl; rewrite Hid.
    - by rewrite Hj'; simpl; rewrite Hid'. }
  apply He. apply list_elem_of_fmap. exists entry'.
  split; [congruence|]. apply list_elem_of_lookup. eauto.
Qed.

(** X22. When new users get fresh identifiers, user ids are unique and the
    request names each e-mail once, the enrolment keeps a batch without
    repeated members free of repetition, and the user ids stay unique. *)
Theorem enrollStudentsToBatch_keeps_members_distinct batchId entries st :
  NoDup (user_id <$> Users (store_db st)) →
  NoDup (snd <$> entries) →
  Forall (λ b, NoDup (batch_students b)) (Batches st) →
  Forall (λ b, NoDup (batch_students b))
    (Batches (snd (enrollStudentsToBatch newUserId castToObjectId batchId
                     (Some entries) st)))
  ∧ NoDup (user_id <$>
           Users (store_db
             (snd (enrollStudentsToBatch newUserId castToObjectId batchId
                     (Some entries) st)))).
Proof.
  intros Hids Hemails Hbatches.
  unfold enrollStudentsToBatch, enroll_into.
  destruct (truthy batchId); [|done].
  destruct (castToObjectId batchId) as [id|]; [|done].
  destruct (list_find _ (Batches st)) as [[bi batch]|] eqn:Hbatch; [|done].
  destruct (enroll_loop _ _ _ _ _) as [users' ids] eqn:Hloop.
  pose proof (enroll_loop_ids_NoDup _ _ _ _ _ _ Hids Hloop) as Hids'.
  apply enroll_loop_spec in Hloop as (_ & newids & -> & Hall).
  simpl. split; [|done].
  apply Forall_insert; [done|]. simpl.
  apply list_find_Some in Hbatch as (Hbi & _).
  pose proof (Forall_lookup_1 _ _ _ _ Hbatches Hbi) as Hold.
  apply NoDup_app. split_and!; [done| |].
  - intros x Hx [Hout _]%list_elem_of_filter. done.
  - apply NoDup_filter. by eapply enrolled_ids_NoDup.
Qed.

End EnrollmentHandler.

Lemma enroll_sample_200 :
  enroll_status
    (fst (enrollStudentsToBatch next_user_id id_of_number (JsNumber 60)
            (Some sample_students) sample_store)) = 200.
Proof. vm_compute. reflexivity. Qed.

Lemma enrollStudentsToBatch_covers_witness :
  ∃ id bi batch batch' entries new,
    id_of_number (JsNumber 60) = Some id
    ∧ Some sample_students = Some entries
    ∧ list_find (λ b, batch_id b = id) (Batches sample_store)
      = Some (bi, batch)
    ∧ Batches (snd (enrollStudentsToBatch next_user_id id_of_number
                      (JsNumber 60) (Some sample_students) sample_store))
        !! bi = Some batch'
    ∧ batch_students batch' = batch_students batch ++ new
    ∧ Forall (λ x, x ∉ batch_students batch) new
    ∧ enroll_counts (fst (enrollStudentsToBatch next_user_id id_of_number
                            (JsNumber 60) (Some sample_students)
                            sample_store))
      = Some (length new, length (batch_students batch) + length new)
    ∧ Forall (λ entry, ∃ x,
                enrolled_as (batch_course batch)
                  (Users (store_db
                     (snd (enrollStudentsToBatch next_user_id id_of_number
                             (JsNumber 60) (Some sample_students)
                             sample_store))))
                  entry x
                ∧ x ∈ batch_students batch') entries.
Proof.
  apply (enrollStudentsToBatch_covers next_user_id id_of_number (JsNumber 60)
           (Some sample_students) sample_store).
  vm_compute. reflexivity.
Defined.

Lemma enrollStudentsToBatch_again_witness :
  ∃ added total,
    enroll_counts (fst (enrollStudentsToBatch next_user_id id_of_number
                          (JsNumber 60) (Some sample_students)
                          sample_store)) = Some (added, total)
    ∧ enrollStudentsToBatch next_user_id id_of_number (JsNumber 60)
        (Some sample_students)
        (snd (enrollStudentsToBatch next_user_id id_of_number (JsNumber 60)
                (Some sample_students) sample_store))
      = (mkEnrollResponse 200 "Students enrolled successfully"
           (Some (0, total)),
         snd (enrollStudentsToBatch next_user_id id_of_number (JsNumber 60)
                (Some sample_students) sample_store)).
Proof.
  apply (enrollStudentsToBatch_again next_user_id id_of_number (JsNumber 60)
           (Some sample_students) sample_store).
  vm_compute. reflexivity.
Defined.

(** The request is not deduplicated: a newcomer listed twice becomes a
    member twice. *)
Example enroll_same_student_twice :
  Batches (snd (enrollStudentsToBatch next_user_id id_of_number (JsNumber 60)
                  (Some [("Erin", "erin@x"); ("Erin", "erin@x")])
                  sample_store))
  = [mkBatch 60 "B1" 50 9 [1; 504; 504]%N].
Proof. vm_compute. reflexivity. Qed.

Lemma above_all_ids_fresh users : above_all_ids users ∉ user_id <$> users.
Proof.
  assert (Hle : ∀ x, x ∈ user_id <$> users →
            (x ≤ foldr N.max 0 (user_id <$> users))%N).
  { induction (user_id <$> users) as [|y l IH]; intros x Hx.
    - by apply elem_of_nil in Hx.
    - simpl. apply elem_of_cons in Hx as [->|Hx]; [lia|].
      specialize (IH x Hx). lia. }
  intros Hin%Hle. unfold above_all_ids in Hin. lia.
Qed.

Lemma enrollStudentsToBatch_keeps_members_distinct_witness :
  Forall (λ b, NoDup (batch_students b))
    (Batches (snd (enrollStudentsToBatch above_all_ids id_of_number
                     (JsNumber 60) (Some sample_students) sample_store)))
  ∧ NoDup (user_id <$>
           Users (store_db
             (snd (enrollStudentsToBatch above_all_ids id_of_number
                     (JsNumber 60) (Some sample_students) sample_store)))).
Proof.
  apply (enrollStudentsToBatch_keeps_members_distinct above_all_ids
           id_of_number above_all_ids_fresh (JsNumber 60) sample_students
           sample_store).
  - apply (bool_decide_unpack _). vm_compute. reflexivity.
  - apply (bool_decide_unpack _). vm_compute. reflexivity.
  - repeat constructor. intros Hin. by apply elem_of_nil in Hin.
Defined.

Section EnrolledList.

Variable newUserId : list User → ObjectId.
Variable castToObjectId : JsValue → option ObjectId.
Hypothesis newUserId_fresh : ∀ users, newUserId users ∉ user_id <$> users.

(** X26. With unique user ids and fresh ids for new users, after a 200
    from the enrolment the student list of the same batch is answered 200
    and shows, for every entry of the request, a student with that
    e-mail. *)
Theorem enrolled_students_listed courseId batchId entries st :
  NoDup (user_id <$> Users (store_db st)) →
  truthy courseId = true →
  enroll_status (fst (enrollStudentsToBatch newUserId castToObjectId
                        batchId (Some entries) st)) = 200 →
  ∃ listed,
    getEnrolledStudents castToObjectId courseId batchId
      (snd (enrollStudentsToBatch newUserId castToObjectId
              batchId (Some entries) st))
    = mkStudentsResponse 200 "" (Some listed)
    ∧ Forall (λ entry, snd entry ∈ snd <$> listed) entries.
Proof.
  intros Hids Hcourse. unfold enrollStudentsToBatch.
  destruct (truthy batchId) eqn:Hbatchid; [|simpl; lia].
  unfold enroll_into.
  destruct (castToObjectId batchId) as [id|] eqn:Hid; [|simpl; lia].
  destruct (list_find _ (Batches st)) as [[bi batch]|] eqn:Hbatch;
    [|simpl; lia].
  destruct (enroll_loop _ _ _ _ _) as [users' ids] eqn:Hloop.
  pose proof (enroll_loop_ids_NoDup newUserId newUserId_fresh
                _ _ _ _ _ _ Hids Hloop) as Hids'.
  apply enroll_loop_spec in Hloop as (_ & newids & -> & Hall).
  simpl. intros _.
  set (batch' := mkBatch _ _ _ _ _).
  unfold getEnrolledStudents, findOne. rewrite Hcourse, Hbatchid, Hid. simpl.
  rewrite (list_find_insert_same _ _ _ batch batch' Hbatch).
  2: { by apply list_find_Some in Hbatch as (_ & ? & _). }
  simpl. eexists. split; [reflexivity|].
  apply Forall_forall. intros entry (k & Hk)%list_elem_of_lookup.
  destruct (Forall2_lookup_l _ _ _ _ _ Hall Hk)
    as (x & Hx & j & u & (Hj & He & _)%list_find_Some & Hid' & _).
  rewrite <- list_fmap_compose. apply list_elem_of_fmap.
  exists u. split; [done|].
  unfold populate_students. apply list_elem_of_omap. exists x. split.
  - subst batch'. simpl.
    destruct (decide (x ∈ batch_students batch)) as [Hin|Hout];
      apply elem_of_app; [by left|right].
    apply list_elem_of_filter. split; [done|].
    apply list_elem_of_lookup. eauto.
  - simpl.
    destruct (findOne (λ u0, user_id u0 = x) users') as [u0|] eqn:Hfind.
    + apply findOne_Some in Hfind as [[j0 Hj0]%list_elem_of_lookup Hu0].
      assert (j0 = j) as ->; [|congruence].
      apply (NoDup_lookup (user_id <$> users') j0 j x Hids');
        rewrite list_lookup_fmap.
      * by rewrite Hj0; simpl; rewrite Hu0.
      * by rewrite Hj; simpl; rewrite Hid'.
    + apply findOne_None in Hfind. rewrite Forall_forall in Hfind.
      destruct (Hfind u); [|done]. apply list_elem_of_lookup. eauto.
Qed.

End EnrolledList.

(** * Properties of the student CSV *)

Example parse_sample_csv : parse_students sample_csv = Some sample_students.
Proof. vm_compute. reflexivity. Qed.

Example trim_sample :
  trim (bytes [32; 9; 194; 160; 65; 32; 66; 13; 10]) = bytes [65; 32; 66].
Proof. vm_compute. reflexivity. Qed.

Lemma text_app (s1 s2 : string) :
  text (String.append s1 s2) = text s1 ++ text s2.
Proof. unfold text. induction s1 as [|a s1 IH]; simpl; [done|]. by rewrite IH. Qed.

Lemma text_inj (s : string) : String.string_of_list_ascii (text s) = s.
Proof. apply String.string_of_list_ascii_of_string. Qed.

Lemma text_nil (s : string) : text s = [] → s = EmptyString.
Proof. by destruct s. Qed.

Lemma snoc_app {A} (l k : list A) (x : A) : (l ++ [x]) ++ k = l ++ x :: k.
Proof. by rewrite <- app_assoc. Qed.

Lemma split_on_cons (c : Ascii.ascii) (l : list Ascii.ascii) :
  ∃ w ws, split_on c l = w :: ws.
Proof.
  induction l as [|x l (w & ws & IH)]; simpl; [by eauto|].
  destruct (Ascii.eqb x c); [by eauto|]. rewrite IH. by eauto.
Qed.

Lemma split_on_none (c : Ascii.ascii) (l : list Ascii.ascii) :
  c ∉ l → split_on c l = [l].
Proof.
  induction l as [|x l IH]; intros Hc; simpl; [done|].
  apply not_elem_of_cons in Hc as [Hx Hc].
  destruct (Ascii.eqb_spec x c) as [->|_]; [done|]. by rewrite IH.
Qed.

Lemma split_on_app (c : Ascii.ascii) (l1 l2 : list Ascii.ascii) :
  c ∉ l1 → split_on c (l1 ++ c :: l2) = l1 :: split_on c l2.
Proof.
  induction l1 as [|x l1 IH]; intros Hc; simpl.
  - by rewrite Ascii.eqb_refl.
  - apply not_elem_of_cons in Hc as [Hx Hc].
    destruct (Ascii.eqb_spec x c) as [->|_]; [done|]. by rewrite IH.
Qed.

Lemma strip_leading_None ps n (l : list Ascii.ascii) :
  strip_any ps l = None → strip_leading ps n l = l.
Proof. intros H. destruct n; simpl; [done|]. by rewrite H. Qed.

(** A text between two characters that start and end no white space is
    left alone by [trim]. *)
Lemma trim_guarded (l : list Ascii.ascii) (a b : Ascii.ascii) :
  (∀ t, strip_any whitespace (a :: t) = None) →
  (∀ t, strip_any (reverse <$> whitespace) (b :: t) = None) →
  head l = Some a → last l = Some b → trim l = l.
Proof.
  intros Ha Hb Hhead Hlast. unfold trim.
  destruct l as [|x t]; [done|]. injection Hhead as ->.
  rewrite (strip_leading_None whitespace _ (a :: t)) by apply Ha.
  rewrite <- head_reverse in Hlast.
  destruct (reverse (a :: t)) as [|y t'] eqn:Hrev; [done|].
  injection Hlast as ->.
  rewrite strip_leading_None by apply Hb.
  rewrite <- Hrev. apply reverse_involutive.
Qed.

Lemma strip_quote t : strip_any whitespace (QUOTE :: t) = None.
Proof. reflexivity. Qed.

Lemma strip_quote_end t :
  strip_any (reverse <$> whitespace) (QUOTE :: t) = None.
Proof. reflexivity. Qed.

Lemma trim_quoted (m : list Ascii.ascii) :
  trim (QUOTE :: m ++ [QUOTE]) = QUOTE :: m ++ [QUOTE].
Proof.
  apply (trim_guarded _ QUOTE QUOTE);
    [apply strip_quote|apply strip_quote_end|done|].
  change (QUOTE :: m ++ [QUOTE]) with ((QUOTE :: m) ++ [QUOTE]).
  apply last_snoc.
Qed.

Lemma unquote_quoted (m : list Ascii.ascii) :
  QUOTE ∉ m → unquote (QUOTE :: m ++ [QUOTE]) = m.
Proof.
  intros Hq. unfold unquote.
  rewrite filter_cons_False by (by intros []).
  rewrite filter_app, filter_all.
  - rewrite filter_cons_False by (by intros []). by rewrite app_nil_r.
  - apply Forall_forall. intros x Hx ->. done.
Qed.

Lemma header_text_line : LF ∉ header_text.
Proof. apply (bool_decide_unpack _). vm_compute. reflexivity. Qed.

Lemma trim_header : trim header_text = header_text.
Proof. vm_compute. reflexivity. Qed.

Section RoundTrip.

Variables courseName courseCode batchName : string.

Lemma text_csv_row student :
  text (csv_row courseName courseCode batchName student)
  = row_text courseName courseCode batchName student ++ [LF].
Proof.
  unfold csv_row, row_text. rewrite !text_app. simpl.
  rewrite <- !app_assoc. simpl. repeat (rewrite <- !app_assoc; simpl).
  reflexivity.
Qed.

Lemma text_students_csv students :
  text (students_csv students courseName courseCode batchName)
  = header_text
    ++ LF :: mjoin ((λ st, row_text courseName courseCode batchName st
                           ++ [LF]) <$> students).
Proof.
  unfold students_csv.
  assert (Hgen : ∀ acc,
    text (foldl (λ csvContent student,
                   String.append csvContent
                     (csv_row courseName courseCode batchName student))
                acc students)
    = text acc ++ mjoin ((λ st, row_text courseName courseCode batchName st
                                ++ [LF]) <$> students)).
  { induction students as [|st rest IH]; intros acc.
    - simpl. by rewrite app_nil_r.
    - cbn [foldl]. rewrite IH, text_app, text_csv_row, fmap_cons.
      cbn [mjoin list_join]. by rewrite <- !app_assoc. }
  rewrite Hgen, text_app. by rewrite <- app_assoc.
Qed.

Hypothesis courseName_line : LF ∉ text courseName.
Hypothesis courseCode_line : LF ∉ text courseCode.
Hypothesis batchName_line : LF ∉ text batchName.

Lemma row_text_line student :
  returnable student →
  LF ∉ row_text courseName courseCode batchName student.
Proof.
  intros ((Hn & _) & (He & _) & _). unfold row_text.
  repeat first [rewrite elem_of_app | rewrite elem_of_cons].
  assert (LF ≠ QUOTE) by (by vm_compute).
  assert (LF ≠ COMMA) by (by vm_compute).
  assert (LF ∉ text " (") by (by intros [|[|?%elem_of_nil]%elem_of_cons]%elem_of_cons).
  assert (LF ∉ text ")") by (by intros [|?%elem_of_nil]%elem_of_cons).
  rewrite !elem_of_nil. tauto.
Qed.

Lemma row_text_quoted student :
  ∃ m, row_text courseName courseCode batchName student
       = QUOTE :: m ++ [QUOTE].
Proof.
  exists (text (fst student) ++ [QUOTE]
          ++ COMMA :: (QUOTE :: text (snd student) ++ [QUOTE])
          ++ COMMA :: (QUOTE :: (text courseName ++ text " (" ++ text courseCode
                                 ++ text ")") ++ [QUOTE])
          ++ COMMA :: QUOTE :: text batchName).
  unfold row_text. simpl. repeat (rewrite <- app_assoc; simpl). reflexivity.
Qed.

Lemma parse_line_row student :
  returnable student →
  parse_line (row_text courseName courseCode batchName student)
  = Some student.
Proof.
  destruct student as [n e].
  intros ((_ & Hnc & Hnq) & (_ & Hec & Heq) & Hn & He). simpl in *.
  assert (COMMA ≠ QUOTE) as Hcq by (by vm_compute).
  unfold parse_line, row_text. simpl fst. simpl snd.
  rewrite split_on_app.
  2: { rewrite elem_of_cons, elem_of_app, list_elem_of_singleton. tauto. }
  rewrite split_on_app.
  2: { rewrite elem_of_cons, elem_of_app, list_elem_of_singleton. tauto. }
  destruct (split_on_cons COMMA
              ((QUOTE :: (text courseName ++ text " (" ++ text courseCode
                          ++ text ")") ++ [QUOTE])
               ++ COMMA :: QUOTE :: text batchName ++ [QUOTE]))
    as (w & ws & ->).
  rewrite !fmap_cons, !trim_quoted, !unquote_quoted by done.
  rewrite !bool_decide_eq_true_2; [by rewrite !text_inj| |].
  - intros Hnil%text_nil. done.
  - intros Hnil%text_nil. done.
Qed.

Lemma split_rows students :
  Forall returnable students →
  split_on LF
    (mjoin ((λ st, row_text courseName courseCode batchName st ++ [LF])
            <$> students))
  = (row_text courseName courseCode batchName <$> students) ++ [[]].
Proof.
  induction 1 as [|st students Hst _ IH]; [done|].
  rewrite !fmap_cons. cbn [mjoin list_join].
  rewrite snoc_app, split_on_app by (by apply row_text_line).
  rewrite <- app_comm_cons. f_equal. exact IH.
Qed.

Lemma trim_row student :
  trim (row_text courseName courseCode batchName student)
  = row_text courseName courseCode batchName student.
Proof.
  destruct (row_text_quoted student) as [m ->]. apply trim_quoted.
Qed.

Lemma row_text_not_nil student :
  row_text courseName courseCode batchName student ≠ [].
Proof. by destruct (row_text_quoted student) as [m ->]. Qed.

Lemma csv_lines_students students :
  Forall returnable students →
  csv_lines (students_csv students courseName courseCode batchName)
  = header_text :: (row_text courseName courseCode batchName <$> students).
Proof.
  intros Hall. unfold csv_lines.
  rewrite text_students_csv, split_on_app by apply header_text_line.
  rewrite split_rows by done.
  rewrite filter_cons_True by (by rewrite trim_header).
  rewrite filter_app, filter_cons_False, filter_nil, app_nil_r.
  2: { intros Hne. by apply Hne. }
  f_equal. apply filter_all, Forall_fmap, Forall_forall.
  intros st _. simpl. rewrite trim_row. apply row_text_not_nil.
Qed.

(** X23. The CSV the download route writes comes back from the upload
    parser: when every student's name and e-mail are non-empty and free of
    commas, double quotes and line feeds (and the course and batch names
    of line feeds), parsing the downloaded text gives back exactly the
    students, in order; the download of a batch without students, a header
    alone, is refused as lacking a data row. *)
Theorem parse_students_csv students :
  Forall returnable students →
  parse_students (students_csv students courseName courseCode batchName)
  = match students with [] => None | _ :: _ => Some students end.
Proof.
  intros Hall. unfold parse_students.
  rewrite csv_lines_students by done.
  assert (Hrows : omap parse_line
                    (row_text courseName courseCode batchName <$> students)
                  = students).
  { induction Hall as [|st sts Hst _ IH]; [done|].
    rewrite fmap_cons. cbn [omap list_omap].
    rewrite parse_line_row by done. f_equal. exact IH. }
  destruct students as [|st rest]; [by rewrite decide_True by (simpl; lia)|].
  rewrite decide_False by (simpl; lia).
  f_equal. exact Hrows.
Qed.

End RoundTrip.

Lemma parse_students_csv_witness :
  parse_students (students_csv sample_students "Algorithms" "CS1" "B1")
  = Some sample_students.
Proof.
  apply (parse_students_csv "Algorithms" "CS1" "B1").
  - apply (bool_decide_unpack _). vm_compute. reflexivity.
  - apply (bool_decide_unpack _). vm_compute. reflexivity.
  - apply (bool_decide_unpack _). vm_compute. reflexivity.
  - repeat constructor; try discriminate;
      apply (bool_decide_unpack _); vm_compute; reflexivity.
Defined.

Lemma split_on_parts (c : Ascii.ascii) (l w : list Ascii.ascii) :
  w ∈ split_on c l → (c ∉ w) ∧ ∀ x, x ∈ w → x ∈ l.
Proof.
  revert w. induction l as [|y l IH]; intros w; simpl.
  { intros ->%list_elem_of_singleton. split; [apply not_elem_of_nil|done]. }
  destruct (Ascii.eqb_spec y c) as [->|Hne].
  - intros [->|Hw]%elem_of_cons.
    + split; [apply not_elem_of_nil|]. intros x Hx. by apply elem_of_nil in Hx.
    + destruct (IH w Hw) as [Hc Hsub]. split; [done|].
      intros x Hx. apply elem_of_cons. right. by apply Hsub.
  - destruct (split_on_cons c l) as (w0 & ws & Hsplit).
    rewrite Hsplit in IH |- *.
    intros [->|Hw]%elem_of_cons.
    + destruct (IH w0) as [Hc Hsub]; [by apply elem_of_cons; left|].
      split.
      * intros [Heq|Hin]%elem_of_cons; [by apply Hne|done].
      * intros x [->|Hx]%elem_of_cons; apply elem_of_cons; auto.
    + destruct (IH w) as [Hc Hsub]; [by apply elem_of_cons; right|].
      split; [done|]. intros x Hx. apply elem_of_cons. right. by apply Hsub.
Qed.

Lemma strip_prefix_suffix (p l l' : list Ascii.ascii) :
  strip_prefix p l = Some l' → ∀ x, x ∈ l' → x ∈ l.
Proof.
  revert l. induction p as [|a p IH]; intros l; simpl.
  { by intros [= ->]. }
  destruct l as [|b l]; [done|]. destruct (Ascii.eqb a b); [|done].
  intros Hp x Hx. apply elem_of_cons. right. by apply (IH l).
Qed.

Lemma strip_leading_elems ps n (l : list Ascii.ascii) x :
  x ∈ strip_leading ps n l → x ∈ l.
Proof.
  revert l. induction n as [|n IH]; intros l; simpl; [done|].
  destruct (strip_any ps l) as [l'|] eqn:Hany; [|done].
  intros Hx%IH. clear IH. induction ps as [|p ps IHps]; [done|].
  simpl in Hany. destruct (strip_prefix p l) as [l''|] eqn:Hp.
  - injection Hany as ->. by eapply strip_prefix_suffix.
  - by apply IHps.
Qed.

Lemma trim_elems (l : list Ascii.ascii) x : x ∈ trim l → x ∈ l.
Proof.
  unfold trim. rewrite elem_of_reverse.
  intros Hx%strip_leading_elems. rewrite elem_of_reverse in Hx.
  by eapply strip_leading_elems.
Qed.

Lemma item_plain (line w : list Ascii.ascii) :
  LF ∉ line → w ∈ split_on COMMA line → unquote (trim w) ≠ [] →
  returnable_text (unquote (trim w)).
Proof.
  intros Hline [Hcomma Hsub]%split_on_parts Hne.
  unfold returnable_text, unquote. split_and!; [| | |done].
  - intros [_ Hx%trim_elems%Hsub]%list_elem_of_filter. done.
  - intros [_ Hx%trim_elems]%list_elem_of_filter. done.
  - intros [Hx _]%list_elem_of_filter. done.
Qed.

Lemma text_of_list (l : list Ascii.ascii) :
  text (String.string_of_list_ascii l) = l.
Proof. apply String.list_ascii_of_string_of_list_ascii. Qed.

Lemma returnable_of_texts (n e : list Ascii.ascii) :
  returnable_text n → returnable_text e →
  returnable (String.string_of_list_ascii n, String.string_of_list_ascii e).
Proof.
  intros (? & ? & ? & Hn) (? & ? & ? & He).
  unfold returnable, plain_field. simpl. rewrite !text_of_list.
  split_and!; try done.
  - intros Heq. apply Hn. by rewrite <- (text_of_list n), Heq.
  - intros Heq. apply He. by rewrite <- (text_of_list e), Heq.
Qed.

Lemma parse_line_returnable line student :
  LF ∉ line → parse_line line = Some student → returnable student.
Proof.
  intros Hline. unfold parse_line.
  destruct (split_on COMMA line) as [|w1 [|w2 ws]] eqn:Hsplit; try done.
  rewrite !fmap_cons.
  case_bool_decide as Hn; [|done]. case_bool_decide as He; [|done].
  simpl. intros [= <-].
  apply returnable_of_texts; apply (item_plain line); try done;
    rewrite Hsplit, !elem_of_cons; auto.
Qed.

(** X24. Whatever file is uploaded, the students the parser hands to the
    enrolment have a non-empty name and a non-empty e-mail, both free of
    commas, double quotes and line feeds: they are the students that
    survive a download followed by an upload. *)
Theorem parse_students_returnable csvContent students :
  parse_students csvContent = Some students → Forall returnable students.
Proof.
  unfold parse_students. case_decide; [done|]. intros [= <-].
  apply Forall_forall. intros student (line & Hin & Hparse)%list_elem_of_omap.
  apply (parse_line_returnable line); [|done].
  assert (Hline : line ∈ csv_lines csvContent).
  { destruct (csv_lines csvContent); [done|]. by apply elem_of_cons; right. }
  unfold csv_lines in Hline.
  apply list_elem_of_filter in Hline as [_ Hline].
  by apply split_on_parts in Hline as [? _].
Qed.

Lemma parse_students_returnable_witness :
  Forall returnable sample_students.
Proof.
  apply (parse_students_returnable sample_csv sample_students).
  vm_compute. reflexivity.
Defined.

Lemma enroll_students_route_again_witness :
  ∃ added total,
    enroll_counts (fst (enroll_students_route next_user_id id_of_number
                          (JsNumber 60) (Some sample_csv) sample_store))
    = Some (added, total)
    ∧ enroll_students_route next_user_id id_of_number (JsNumber 60)
        (Some sample_csv)
        (snd (enroll_students_route next_user_id id_of_number (JsNumber 60)
                (Some sample_csv) sample_store))
      = (mkEnrollResponse 200 "Students enrolled successfully"
           (Some (0, total)),
         snd (enroll_students_route next_user_id id_of_number (JsNumber 60)
                (Some sample_csv) sample_store)).
Proof.
  apply (enroll_students_route_again next_user_id id_of_number (JsNumber 60)
           (Some sample_csv) sample_store).
  vm_compute. reflexivity.
Defined.

Lemma enrolled_students_listed_witness :
  ∃ listed,
    getEnrolledStudents id_of_number (JsNumber 50) (JsNumber 60)
      (snd (enrollStudentsToBatch above_all_ids id_of_number
              (JsNumber 60) (Some sample_students) sample_store))
    = mkStudentsResponse 200 "" (Some listed)
    ∧ Forall (λ entry, snd entry ∈ snd <$> listed) sample_students.
Proof.
  apply (enrolled_students_listed above_all_ids id_of_number
           above_all_ids_fresh (JsNumber 50) (JsNumber 60) sample_students
           sample_store).
  - apply (bool_decide_unpack _). vm_compute. reflexivity.
  - reflexivity.
  - vm_compute. reflexivity.
Defined.

(** The upload of the sample download enrols the newcomer and keeps the
    member. *)
Example enroll_sample_csv :
  fst (enroll_students_route next_user_id id_of_number (JsNumber 60)
         (Some sample_csv) sample_store)
  = mkEnrollResponse 200 "Students enrolled successfully" (Some (1, 2)).
Proof. vm_compute. reflexivity. Qed.
